(** * scanpy.tools.score_genes: gene-set scores and cell-cycle phases

    A shallow embedding of [src/scanpy/tools/score_genes.py]
    ([score_genes] and [score_genes_cell_cycle]) together with the
    properties of the two functions that the specification states.

    Conventions of the embedding.
    - Python [int] is [Z]; gene and column names are [string].
    - A float64 is a [num]: an exact rational or [NaN].  Rounding error and
      infinities of IEEE arithmetic are not represented.
    - A Python [set] of names is a [gset string]; [list(s)] of a set is
      [elements s].
    - The process-wide generator behind [np.random] is the interface
      [NumpyRandom]; the functions thread its state through a [world],
      next to the store of [AnnData] objects (objects are referred to by
      location, so that [adata.copy()] and in-place updates are told apart).
    - A raised exception is the outcome [Raise e]; the world reached when it
      was raised is kept.
    - The messages handed to the logger ([logg.info], [logg.hint]) are left
      out: nothing in the two functions reads them back. *)

From Stdlib Require Import ZArith QArith.
From stdpp Require Import base option list sorting gmap sets strings.

Local Open Scope Z_scope.

(** ** Numbers *)

Inductive num : Type :=
  | NaN
  | Fin (q : Q).

Definition Qltb (x y : Q) : bool :=
  match Qcompare x y with Lt => true | _ => false end.

(** [a < b] on floats: false as soon as one side is NaN. *)
Definition num_ltb (a b : num) : bool :=
  match a, b with
  | Fin x, Fin y => Qltb x y
  | _, _ => false
  end.

Definition num_sub (a b : num) : num :=
  match a, b with
  | Fin x, Fin y => Fin (x - y)
  | _, _ => NaN
  end.

Definition finite_values (l : list num) : list Q :=
  omap (fun x => match x with Fin q => Some q | NaN => None end) l.

Definition Qsum (l : list Q) : Q := foldr Qplus (0%Q) l.

Definition Qmean (l : list Q) : num :=
  match l with
  | [] => NaN
  | _ => Fin (Qsum l / inject_Z (Z.of_nat (length l)))
  end.

(** [np.nanmean]: the mean of the entries that are not NaN; NaN when there
    is none. *)
Definition nanmean (l : list num) : num := Qmean (finite_values l).

(** [np.mean]: NaN as soon as one entry is NaN, and over no entry at all. *)
Definition mean (l : list num) : num :=
  if forallb (fun x => match x with Fin _ => true | NaN => false end) l
  then Qmean (finite_values l) else NaN.

(** ** Bin width: [int(np.round(len(obs_avg) / (n_bins - 1)))] *)

Inductive exn : Type :=
  | ZeroDivisionError
  | ValueError
  | KeyError
  | TypeError.

Inductive result (A : Type) : Type :=
  | Ok (a : A)
  | Raise (e : exn).
Arguments Ok {A} a.
Arguments Raise {A} e.

(** [np.round] of the quotient [a / b] ([b <> 0]): the nearest integer, a
    tie going to the even neighbour. *)
Definition round_half_even (a b : Z) : Z :=
  let q := a / b in
  let r := a mod b in
  match Z.compare (2 * Z.abs r) (Z.abs b) with
  | Lt => q
  | Gt => q + 1
  | Eq => if Z.even q then q else q + 1
  end.

(** Python's [/] on two ints raises on a zero divisor. *)
Definition n_items_of (pool_size n_bins : Z) : result Z :=
  if decide (n_bins - 1 = 0) then Raise ZeroDivisionError
  else Ok (round_half_even pool_size (n_bins - 1)).

(** The width the specification names: [ceil(a / b)]. *)
Definition ceil_div (a b : Z) : Z := - ((- a) / b).

(** ** Ranks and bins *)

(** [Series.rank(method='min')]: one plus the number of strictly smaller
    values; a NaN keeps a NaN rank and is not counted. *)
Definition rank_of (vals : list num) (v : num) : option Z :=
  match v with
  | NaN => None
  | Fin _ => Some (1 + Z.of_nat (length (filter (fun u => num_ltb u v = true) vals)))
  end.

Definition rank_min (vals : list num) : list (option Z) :=
  map (rank_of vals) vals.

(** A bin index is a float holding an integer, or NaN ([None]). *)
Abbreviation cut := (option Z).

(** [rank // n_items] on a float Series: floor division; NaN stays NaN, and
    a zero divisor raises nothing: numpy's [floor_divide] of the time answers
    NaN (later versions answer [inf], which no property below depends on). *)
Definition floordiv (r : option Z) (n : Z) : cut :=
  match r with
  | None => None
  | Some x => if decide (n = 0) then None else Some (x / n)
  end.

(** A [pd.Series]: values labelled by an index of names. *)
Abbreviation series A := (list (string * A)).

Definition obs_cut_of (obs_avg : series num) (n_items : Z) : series cut :=
  zip (obs_avg.*1) (map (fun r => floordiv r n_items) (rank_min (obs_avg.*2))).

(** [obs_cut.loc[keys]] for a list-like of labels, as pandas resolved it
    when the module was written: an empty key list selects nothing; when no
    key at all is in the index the lookup raises [KeyError]; otherwise a key
    that is missing contributes one NaN and a key that is present
    contributes every value it labels. *)
Definition series_loc (s : series cut) (keys : list string) : result (list cut) :=
  match keys with
  | [] => Ok []
  | _ =>
      if decide (Forall (fun k => k ∉ s.*1) keys) then Raise KeyError
      else Ok (keys ≫= fun k =>
                 match filter (fun p => p.1 = k) s with
                 | [] => [None]
                 | hits => hits.*2
                 end)
  end.

(** [np.unique]: the distinct values in increasing order; NaNs compare
    unequal to everything, so each of them is kept, after the numbers. *)
Definition np_unique (l : list cut) : list cut :=
  (Some <$> merge_sort Z.le (remove_dups (omap id l)))
  ++ filter (fun c => c = None) l.

(** [obs_cut == cut]: never true on a NaN. *)
Definition cut_eqb (a b : cut) : bool :=
  match a, b with
  | Some x, Some y => bool_decide (x = y)
  | _, _ => false
  end.

(** [obs_cut[obs_cut == cut].index] *)
Definition genes_in_cut (obs_cut : series cut) (c : cut) : list string :=
  (filter (fun p => cut_eqb p.2 c = true) obs_cut).*1.

(** The slice [l[:n]] of Python: a negative [n] counts from the end. *)
Definition py_slice_to {A} (l : list A) (n : Z) : list A :=
  if decide (0 <= n) then take (Z.to_nat n) l
  else take (length l - Z.to_nat (- n)) l.

(** ** The annotated data container *)

Inductive column : Type :=
  | NumCol (v : list num)
  | StrCol (v : list string).

(** [X] is kept row by row (one row per cell, one entry per gene of
    [var_names]); a column of [obs] holds one value per cell, in row order,
    so the index [obs_names] is left implicit. *)
Record AnnData : Type := mkAnnData {
  X : list (list num);
  issparse : bool;
  var_names : list string;
  obs : gmap string column
}.

Definition set_obs_column (ad : AnnData) (name : string) (c : column) : AnnData :=
  mkAnnData (X ad) (issparse ad) (var_names ad) (<[name := c]> (obs ad)).

Definition var_index (ad : AnnData) (name : string) : option nat :=
  fst <$> list_find (fun v => v = name) (var_names ad).

Definition entry (row : list num) (j : nat) : num := default NaN (row !! j).

(** The matrix [adata[:, names].X], row by row; a name that is no variable
    raises. *)
Definition subset_X (ad : AnnData) (names : list string) : result (list (list num)) :=
  match mapM (var_index ad) names with
  | Some js => Ok (map (fun row => map (entry row) js) (X ad))
  | None => Raise KeyError
  end.

(** [.toarray()] densifies; the entries are the same. *)
Definition toarray (m : list (list num)) : list (list num) := m.

(** [np.nanmean(m, axis=0)] of a matrix with [width] columns. *)
Definition nanmean_axis0 (width : nat) (m : list (list num)) : list num :=
  map (fun j => nanmean (map (fun row => entry row j) m)) (seq 0 width).

(** [np.mean(m, axis=1)] *)
Definition mean_axis1 (m : list (list num)) : list num := map mean m.

(** ** The process-wide random generator *)

(** What the module uses of [np.random]: [seed] and [shuffle].  A shuffle
    returns a rearrangement of its argument and the next state. *)
Class NumpyRandom : Type := {
  rng_state : Type;
  seed_state : Z -> rng_state;
  shuffle_state : rng_state -> list string -> list string * rng_state;
  shuffle_perm : forall s l, (shuffle_state s l).1 ≡ₚ l
}.

Inductive rng_call : Type :=
  | CallSeed (z : Z)
  | CallShuffle (l : list string).

Section WithGenerator.
Context `{NumpyRandom}.

(** The store of containers, the generator state, and the calls made on the
    generator so far (most recent first). *)
Record world : Type := mkWorld {
  heap : gmap nat AnnData;
  rng : rng_state;
  rng_calls : list rng_call
}.

Definition M (A : Type) : Type := world -> result A * world.

#[export] Instance M_ret : MRet M := fun A a w => (Ok a, w).
#[export] Instance M_bind : MBind M := fun A B f m w =>
  match m w with
  | (Ok a, w') => f a w'
  | (Raise e, w') => (Raise e, w')
  end.

Definition raise {A} (e : exn) : M A := fun w => (Raise e, w).

Definition lift {A} (r : result A) : M A := fun w => (r, w).

(** Dereference a container; every location the functions are given is
    allocated, the [None] case only makes the definition total. *)
Definition get_adata (l : nat) : M AnnData := fun w =>
  match heap w !! l with
  | Some ad => (Ok ad, w)
  | None => (Raise KeyError, w)
  end.

(** [adata.copy()]: a new, independent container. *)
Definition adata_copy (l : nat) : M nat := fun w =>
  match heap w !! l with
  | Some ad =>
      let l' := fresh (dom (heap w)) in
      (Ok l', mkWorld (<[l' := ad]> (heap w)) (rng w) (rng_calls w))
  | None => (Raise KeyError, w)
  end.

(** [adata.obs[name] = column] *)
Definition set_obs (l : nat) (name : string) (c : column) : M unit := fun w =>
  match heap w !! l with
  | Some ad =>
      (Ok tt, mkWorld (<[l := set_obs_column ad name c]> (heap w)) (rng w) (rng_calls w))
  | None => (Raise KeyError, w)
  end.

(** [np.random.seed(z)]: the seed must fit 32 unsigned bits. *)
Definition np_random_seed (z : Z) : M unit := fun w =>
  if decide (0 <= z < 2 ^ 32)
  then (Ok tt, mkWorld (heap w) (seed_state z) (CallSeed z :: rng_calls w))
  else (Raise ValueError, w).

(** [np.random.shuffle(l)]; the array is shuffled in place, the model
    returns it. *)
Definition np_random_shuffle (l : list string) : M (list string) := fun w =>
  let '(l', s') := shuffle_state (rng w) l in
  (Ok l', mkWorld (heap w) s' (CallShuffle l :: rng_calls w)).


(** ** [score_genes] *)

(** The loop of lines 89-92: for every bin value, the pool genes of that
    bin are shuffled and the first [ctrl_size] join [control_genes]. *)
Fixpoint pick_controls (cuts : list cut) (obs_cut : series cut) (ctrl_size : Z)
    (control_genes : gset string) : M (gset string) :=
  match cuts with
  | [] => mret control_genes
  | c :: cuts' =>
      r_genes ← np_random_shuffle (genes_in_cut obs_cut c);
      pick_controls cuts' obs_cut ctrl_size
        (control_genes ∪ list_to_set (py_slice_to r_genes ctrl_size))
  end.

(** The local variables of a run that the properties speak about. *)
Record locals : Type := mkLocals {
  l_gene_set : gset string;       (* [gene_list] after line 64 *)
  l_obs_cut : series cut;         (* [obs_cut], line 85 *)
  l_sampled : gset string;        (* [control_genes] after the loop *)
  l_control_genes : list string;  (* [control_genes], line 95 *)
  l_gene_list : list string;      (* [gene_list], line 96 *)
  l_score : list num              (* [score], line 98 *)
}.

(** Line 64: the names of [gene_list] that are variables of the container. *)
Definition known_genes (ad : AnnData) (gene_list : list string) : gset string :=
  list_to_set (filter (fun x => x ∈ var_names ad) gene_list).

(** Lines 66-69: a pool that is [None] or empty stands for every variable. *)
Definition resolve_gene_pool (ad : AnnData) (gene_pool : option (list string)) : list string :=
  match gene_pool with
  | None | Some [] => var_names ad
  | Some pool => filter (fun x => x ∈ var_names ad) pool
  end.

(** Lines 76-82: the average expression of every pool gene. *)
Definition obs_avg_of (ad : AnnData) (gene_pool : list string)
    (pool_X : list (list num)) : series num :=
  if issparse ad
  then zip gene_pool (nanmean_axis0 (length gene_pool) (toarray pool_X))
  else zip gene_pool (nanmean_axis0 (length gene_pool) pool_X).

(** Lines 61-98, on the container resolved at line 59. *)
Definition score_genes_body (adata : nat) (gene_list : list string) (ctrl_size : Z)
    (gene_pool : option (list string)) (n_bins : Z) (random_state : Z) : M locals :=
  (if decide (random_state ≠ 0) then np_random_seed random_state else mret tt);;
  ad ← get_adata adata;
  let gene_list := known_genes ad gene_list in
  let gene_pool := resolve_gene_pool ad gene_pool in
  pool_X ← lift (subset_X ad gene_pool);
  let obs_avg := obs_avg_of ad gene_pool pool_X in
  n_items ← lift (n_items_of (Z.of_nat (length obs_avg)) n_bins);
  let obs_cut := obs_cut_of obs_avg n_items in
  picked ← lift (series_loc obs_cut (elements gene_list));
  sampled ← pick_controls (np_unique picked) obs_cut ctrl_size ∅;
  let control_genes := elements (sampled ∖ gene_list) in
  let gene_list' := elements gene_list in
  target_X ← lift (subset_X ad gene_list');
  control_X ← lift (subset_X ad control_genes);
  let score := zip_with num_sub (mean_axis1 target_X) (mean_axis1 control_X) in
  mret (mkLocals gene_list obs_cut sampled control_genes gene_list' score).

(** The whole function; next to the value returned, the run hands out the
    local variables, which [score_genes] drops. *)
Definition score_genes_run (adata : nat) (gene_list : list string) (ctrl_size : Z)
    (gene_pool : option (list string)) (n_bins : Z) (score_name : string)
    (random_state : Z) (copy : bool) : M (option nat * locals) :=
  adata ← (if copy then adata_copy adata else mret adata);
  lc ← score_genes_body adata gene_list ctrl_size gene_pool n_bins random_state;
  set_obs adata score_name (NumCol (l_score lc));;
  mret (if copy then Some adata else None, lc).

Definition score_genes (adata : nat) (gene_list : list string) (ctrl_size : Z)
    (gene_pool : option (list string)) (n_bins : Z) (score_name : string)
    (random_state : Z) (copy : bool) : M (option nat) :=
  r ← score_genes_run adata gene_list ctrl_size gene_pool n_bins score_name
        random_state copy;
  mret r.1.

(** ** [score_genes_cell_cycle] *)

(** The keyword arguments collected by [**kwargs].  [adata], [s_genes],
    [g2m_genes] and [copy] are parameters of [score_genes_cell_cycle] itself
    and never land there; [kw_other] lists the keys that are no parameter of
    [score_genes]. *)
Record kwargs : Type := mkKwargs {
  kw_gene_list : option (list string);
  kw_ctrl_size : option Z;
  kw_gene_pool : option (option (list string));
  kw_n_bins : option Z;
  kw_score_name : option string;
  kw_random_state : option Z;
  kw_other : list string
}.

Definition no_kwargs : kwargs := mkKwargs None None None None None None [].

(** The call [score_genes(adata, gene_list=..., score_name=...,
    ctrl_size=..., **kwargs)]: a key of [kwargs] that repeats one of the
    keywords written out, or that names no parameter, is a [TypeError]
    raised before the body of [score_genes] runs; parameters left out take
    their defaults. *)
Definition call_score_genes (adata : nat) (gene_list : list string)
    (score_name : string) (ctrl_size : Z) (kw : kwargs) : M (option nat) :=
  if bool_decide (is_Some (kw_gene_list kw) ∨ is_Some (kw_score_name kw)
                  ∨ is_Some (kw_ctrl_size kw) ∨ kw_other kw ≠ [])
  then raise TypeError
  else score_genes adata gene_list ctrl_size
         (default None (kw_gene_pool kw)) (default 25 (kw_n_bins kw))
         score_name (default 0 (kw_random_state kw)) false.

(** [phase[mask] = value] *)
Definition mask_assign (phase : list string) (mask : list bool) (value : string) : list string :=
  zip_with (fun p (b : bool) => if b then value else p) phase mask.

(** Lines 162-169 on the two score columns. *)
Definition assign_phase (S_score G2M_score : list num) : list string :=
  let phase := map (fun _ => "S"%string) (zip S_score G2M_score) in
  let phase := mask_assign phase
    (zip_with (fun s g => num_ltb s g) S_score G2M_score) "G2M" in
  let phase := mask_assign phase
    (zip_with (fun s g => num_ltb s (Fin 0) && num_ltb g (Fin 0)) S_score G2M_score) "G1" in
  phase.

(** [adata.obs[['S_score', 'G2M_score']]] *)
Definition get_scores (ad : AnnData) : result (list num * list num) :=
  match obs ad !! "S_score"%string, obs ad !! "G2M_score"%string with
  | Some (NumCol s), Some (NumCol g) => Ok (s, g)
  | _, _ => Raise KeyError
  end.

(** Lines 160-171: the phase column, from the two score columns. *)
Definition write_phase (adata : nat) : M unit :=
  ad ← get_adata adata;
  scores ← lift (get_scores ad);
  let phase := assign_phase scores.1 scores.2 in
  set_obs adata "phase" (StrCol phase).

Definition score_genes_cell_cycle (adata : nat) (s_genes g2m_genes : list string)
    (copy : bool) (kw : kwargs) : M (option nat) :=
  adata ← (if copy then adata_copy adata else mret adata);
  let ctrl_size := Z.min (Z.of_nat (length s_genes)) (Z.of_nat (length g2m_genes)) in
  call_score_genes adata s_genes "S_score" ctrl_size kw;;
  call_score_genes adata g2m_genes "G2M_score" ctrl_size kw;;
  write_phase adata;;
  mret (if copy then Some adata else None).

End WithGenerator.

(** ** The sampling loop as a function of the generator state *)

Section PureLoop.
Context `{NumpyRandom}.

(** What [pick_controls] computes from the generator state it starts in:
    the set collected and the state left behind. *)
Fixpoint sample_bins (cuts : list cut) (obs_cut : series cut) (ctrl_size : Z)
    (acc : gset string) (s : rng_state) : gset string * rng_state :=
  match cuts with
  | [] => (acc, s)
  | c :: cuts' =>
      let r := shuffle_state s (genes_in_cut obs_cut c) in
      sample_bins cuts' obs_cut ctrl_size
        (acc ∪ list_to_set (py_slice_to r.1 ctrl_size)) r.2
  end.

(** The calls the loop makes on the generator, most recent first. *)
Definition shuffle_calls (cuts : list cut) (obs_cut : series cut) : list rng_call :=
  rev (map (fun c => CallShuffle (genes_in_cut obs_cut c)) cuts).

(** The genes drawn from one bin when the generator is in state [s]. *)
Definition drawn_from_bin (obs_cut : series cut) (ctrl_size : Z) (c : cut)
    (s : rng_state) : list string :=
  py_slice_to (shuffle_state s (genes_in_cut obs_cut c)).1 ctrl_size.

Definition is_seed_call (c : rng_call) : bool :=
  match c with CallSeed _ => true | CallShuffle _ => false end.


(** The local variables of a run of the whole function, or the exception. *)
Definition locals_of_run (r : result (option nat * locals) * world) : result locals :=
  match r.1 with
  | Ok p => Ok p.2
  | Raise e => Raise e
  end.

(** The world in which the body runs: the one given, or the one where the
    copy of line 59 has been allocated. *)
Definition body_world (copy : bool) (ad : AnnData) (w : world) : world :=
  if copy
  then mkWorld (<[fresh (dom (heap w)) := ad]> (heap w)) (rng w) (rng_calls w)
  else w.

(** The container the body works on. *)
Definition body_adata (copy : bool) (adata : nat) (w : world) : nat :=
  if copy then fresh (dom (heap w)) else adata.

(** Keyword arguments that the two calls of [score_genes] accept. *)
Definition kwargs_accepted (kw : kwargs) : Prop :=
  kw_gene_list kw = None /\ kw_score_name kw = None /\ kw_ctrl_size kw = None
  /\ kw_other kw = [].

(** The phase of one cell, by cases. *)
Definition phase_of (s g : num) : string :=
  if num_ltb s (Fin 0) && num_ltb g (Fin 0) then "G1"
  else if num_ltb s g then "G2M"
  else "S".

(** The container after a successful [score_genes_cell_cycle] that computed
    the score vectors [s] and [g]. *)
Definition with_cell_cycle (ad : AnnData) (s g : list num) : AnnData :=
  set_obs_column
    (set_obs_column (set_obs_column ad "S_score" (NumCol s)) "G2M_score" (NumCol g))
    "phase" (StrCol (assign_phase s g)).

(** The world after lines 61-62. *)
Definition after_seed (random_state : Z) (w : world) : world :=
  if decide (random_state ≠ 0)
  then mkWorld (heap w) (seed_state random_state) (CallSeed random_state :: rng_calls w)
  else w.

End PureLoop.

(** ** The bins as the specification words them *)


(** ** A generator and a container to run the model on *)

(** A generator whose state is a counter: a shuffle rotates its argument
    by the counter and increments it; seeding sets the counter. *)
#[export] Instance counter_generator : NumpyRandom.
Proof.
  refine {| rng_state := nat;
            seed_state := Z.to_nat;
            shuffle_state := fun s l => (rotate s l, S s) |}.
  intros s l. cbn. unfold rotate.
  rewrite Permutation_app_comm. by rewrite take_drop.
Defined.

Definition ex_row : list num :=
  [Fin 1; Fin 2; Fin 3; Fin 4; Fin 5; Fin 6].

(** Two cells, six genes whose averages are 1, ..., 6. *)
Definition ex_adata : AnnData :=
  mkAnnData [ex_row; ex_row] false ["A"; "B"; "C"; "D"; "E"; "F"]%string ∅.

Definition ex_world : world :=
  mkWorld {[ 0%nat := ex_adata ]} 0%nat [].

(** Keyword arguments that only set [n_bins = 3]. *)
Definition ex_kwargs : kwargs := mkKwargs None None None (Some 3) None None [].

(** The same with [ctrl_size = 7] on top. *)
Definition ex_kwargs_ctrl : kwargs := mkKwargs None (Some 7) None (Some 3) None None [].


(** The same container with a missing value: gene [C] in the first cell. *)
Definition ex_adata_nan : AnnData :=
  mkAnnData [[Fin 1; Fin 2; NaN; Fin 4; Fin 5; Fin 6]; ex_row] false
    ["A"; "B"; "C"; "D"; "E"; "F"]%string ∅.

Definition ex_world_nan : world :=
  mkWorld {[ 0%nat := ex_adata_nan ]} 0%nat [].

(** * The command line ([scanpy/__main__.py]) *)

(** The keys and help texts of [dsimple] and [dtools], in order. *)
Definition dsimple : list (string * string) :=
  [("exdata", "show example data");
   ("examples", "show example use cases")]%string.

Definition dtools : list (string * string) :=
  [("pca", "visualize using PCA");
   ("diffmap", "visualize using Diffusion Map");
   ("tsne", "visualize using tSNE");
   ("dpt", "perform Diffusion Pseudotime analysis");
   ("difftest", "test for differential expression");
   ("sim", "simulate stochastic gene expression models")]%string.

(** What [main] ends in.  Printing the help, the inquiries of [sc], the
    parser and [sc.run_args] are not part of the file: [main] is modelled up
    to the call it makes. *)
Inductive main_action : Type :=
  | PrintHelp                        (* [init_main_parser().print_help()], [exit(0)] *)
  | SimpleInquiry (key : string)     (* [func[argv[1]]()], [exit(0)] *)
  | PrintUsage (lines : list string) (* the three [print]s, [exit(0)] *)
  | RunTool (args : list string).    (* [parse_args(argv[1:])], then [run_args] *)

(** Lines 102-104. *)
Definition usage (prog : string) : list string :=
  [("normal usage:    " ++ prog ++ " tool exkey")%string;
   ("efficient usage: " ++ prog ++ " exkey tool")%string;
   ("help:            " ++ prog ++ " -h")%string].

(** [main], on [sys.argv = prog :: args] ([sys.argv] is never empty). *)
Definition main (prog : string) (args : list string) : main_action :=
  match args with
  | [] => PrintHelp
  | a1 :: rest =>
      if bool_decide (a1 = "h"%string \/ a1 = "--help"%string) then PrintHelp
      else if bool_decide (a1 ∈ dsimple.*1) then SimpleInquiry a1
      else if bool_decide (a1 ∉ dtools.*1) then
        match rest with
        | a2 :: rest' =>
            if bool_decide (a2 ∈ dtools.*1) then RunTool (a2 :: a1 :: rest')
            else PrintUsage (usage prog)
        | [] => PrintUsage (usage prog)
        end
      else RunTool (a1 :: rest)
  end.

(** * Properties *)

(** ** The bin width *)

Section BinWidth.

Lemma div_mod_sign (a b : Z) :
  b ≠ 0 ->
  a = b * (a / b) + a mod b /\ Z.abs (a mod b) < Z.abs b
  /\ Z.abs (a mod b - b) = Z.abs b - Z.abs (a mod b).
Proof.
  intros Hb. split; [apply Z.div_mod; done|].
  destruct (Z_lt_ge_dec 0 b) as [Hpos|Hneg].
  - pose proof (Z.mod_pos_bound a b Hpos). lia.
  - assert (b < 0) as Hlt by lia.
    pose proof (Z.mod_neg_bound a b Hlt). lia.
Qed.

(** [round_half_even a b] is an integer nearest to the quotient [a / b]. *)
Lemma round_half_even_nearest (a b : Z) :
  b ≠ 0 -> 2 * Z.abs (a - b * round_half_even a b) <= Z.abs b.
Proof.
  intros Hb. destruct (div_mod_sign a b Hb) as (Hdm & Hlt & Habs).
  unfold round_half_even.
  assert (a - b * (a / b) = a mod b) as E0 by lia.
  assert (a - b * (a / b + 1) = a mod b - b) as E1 by lia.
  destruct (Z.compare_spec (2 * Z.abs (a mod b)) (Z.abs b)) as [Heq|Hl|Hg].
  - destruct (Z.even (a / b)); [rewrite E0|rewrite E1]; lia.
  - rewrite E0. lia.
  - rewrite E1. lia.
Qed.


(** The rounded width never exceeds the ceiling the specification names. *)
Lemma round_half_even_le_ceil (a b : Z) :
  0 < b -> round_half_even a b <= ceil_div a b.
Proof.
  intros Hb. unfold round_half_even, ceil_div.
  pose proof (Z.mod_pos_bound a b Hb) as Hr.
  pose proof (Z.div_mod a b ltac:(lia)) as Hdm.
  assert (a mod b = 0 \/ 0 < a mod b) as [Hz|Hnz] by lia.
  - assert (2 * Z.abs (a mod b) < Z.abs b) as Hl by lia.
    apply Z.compare_lt_iff in Hl. rewrite Hl.
    assert (- a = b * (- (a / b))) as -> by lia.
    rewrite Z.mul_comm, Z.div_mul by lia. lia.
  - assert (- a / b = - (a / b) - 1) as ->.
    { symmetry. apply (Z.div_unique_pos (- a) b _ (b - a mod b)); lia. }
    destruct (2 * Z.abs (a mod b) ?= Z.abs b); [destruct (Z.even (a / b))| |]; lia.
Qed.

Lemma n_items_of_ok (pool_size n_bins : Z) :
  n_bins ≠ 1 ->
  n_items_of pool_size n_bins = Ok (round_half_even pool_size (n_bins - 1)).
Proof. intros Hn. unfold n_items_of. case_decide; [lia|done]. Qed.


End BinWidth.

(** ** Competition ranks *)

Section Ranks.

Lemma Qltb_lt (x y : Q) : Qltb x y = true <-> (x < y)%Q.
Proof.
  unfold Qltb. rewrite Qlt_alt.
  destruct (x ?= y)%Q; split; congruence.
Qed.

Lemma length_filter_mono {A} (P Q : A -> Prop)
    `{forall x, Decision (P x)} `{forall x, Decision (Q x)} (l : list A) :
  (forall x, P x -> Q x) ->
  (length (filter P l) <= length (filter Q l))%nat.
Proof.
  intros HPQ. induction l as [|a l IH]; [done|].
  rewrite !filter_cons.
  destruct (decide (P a)) as [HP|HP], (decide (Q a)) as [HQ|HQ]; cbn; try lia.
  by destruct HQ; apply HPQ.
Qed.

Lemma length_filter_lt {A} (P Q : A -> Prop)
    `{forall x, Decision (P x)} `{forall x, Decision (Q x)} (l : list A) a :
  (forall x, P x -> Q x) -> a ∈ l -> Q a -> ¬ P a ->
  (length (filter P l) < length (filter Q l))%nat.
Proof.
  intros HPQ Ha HQa HPa. induction l as [|b l IH]; [by apply elem_of_nil in Ha|].
  rewrite !filter_cons.
  apply elem_of_cons in Ha as [<-|Ha].
  - destruct (decide (P a)) as [|_]; [done|].
    destruct (decide (Q a)) as [_|]; [|done]. cbn.
    pose proof (length_filter_mono P Q l HPQ). lia.
  - specialize (IH Ha).
    destruct (decide (P b)) as [HP|HP], (decide (Q b)) as [HQ|HQ]; cbn; try lia.
    by destruct HQ; apply HPQ.
Qed.

(** A rank lies between 1 and the number of values. *)
Lemma rank_of_bounds (vals : list num) q r :
  Fin q ∈ vals -> rank_of vals (Fin q) = Some r ->
  1 <= r <= Z.of_nat (length vals).
Proof.
  intros Hin [= <-].
  assert (length (filter (fun u => num_ltb u (Fin q) = true) vals)
          < length (filter (fun _ => True) vals))%nat as Hlt.
  { apply (length_filter_lt (fun u => num_ltb u (Fin q) = true) (fun _ => True)
             vals (Fin q)); try done.
    cbn. intros Hq. apply Qltb_lt in Hq. by apply Qlt_irrefl in Hq. }
  pose proof (length_filter (fun _ : num => True) vals). lia.
Qed.

(** Equal values share their rank. *)
Lemma rank_of_ties (vals : list num) x y :
  (x == y)%Q -> rank_of vals (Fin x) = rank_of vals (Fin y).
Proof.
  intros Heq. cbn. do 4 f_equal. apply list_filter_iff.
  intros [|u]; cbn; [done|].
  rewrite !Qltb_lt. by rewrite Heq.
Qed.

(** A strictly smaller value has a strictly smaller rank. *)
Lemma rank_of_lt (vals : list num) x y rx ry :
  Fin x ∈ vals -> (x < y)%Q ->
  rank_of vals (Fin x) = Some rx -> rank_of vals (Fin y) = Some ry ->
  rx < ry.
Proof.
  intros Hin Hxy [= <-] [= <-].
  assert (length (filter (fun u => num_ltb u (Fin x) = true) vals)
          < length (filter (fun u => num_ltb u (Fin y) = true) vals))%nat as Hlt; [|lia].
  apply (length_filter_lt (fun u => num_ltb u (Fin x) = true)
           (fun u => num_ltb u (Fin y) = true) vals (Fin x)); [|done| |].
  - intros [|u]; cbn; [done|]. rewrite !Qltb_lt. intros Hu. by apply (Qlt_trans u x y).
  - cbn. by apply Qltb_lt.
  - cbn. intros Hq. apply Qltb_lt in Hq. by apply Qlt_irrefl in Hq.
Qed.

(** The smallest value has rank 1. *)
Lemma rank_of_least (vals : list num) q :
  (forall u, Fin u ∈ vals -> ¬ (u < q)%Q) -> rank_of vals (Fin q) = Some 1.
Proof.
  intros Hleast. cbn. f_equal.
  assert (filter (fun u => num_ltb u (Fin q) = true) vals = []) as ->; [|done].
  induction vals as [|[|u] vals IH]; [done| |].
  - rewrite filter_cons_False by done. apply IH.
    intros u Hu. apply Hleast. by right.
  - rewrite filter_cons_False.
    + apply IH. intros u' Hu'. apply Hleast. by right.
    + cbn. intros Hu. apply Qltb_lt in Hu. apply (Hleast u); [by left|done].
Qed.

End Ranks.

(** ** Running the model *)

Section Runs.
Context `{NumpyRandom}.

Lemma bind_run {A B} (m : M A) (f : A -> M B) (w : world) :
  (m ≫= f) w =
  match m w with
  | (Ok a, w') => f a w'
  | (Raise e, w') => (Raise e, w')
  end.
Proof. done. Qed.

Lemma pick_controls_run cuts oc cs acc (w : world) :
  pick_controls cuts oc cs acc w =
  (Ok (sample_bins cuts oc cs acc (rng w)).1,
   mkWorld (heap w) (sample_bins cuts oc cs acc (rng w)).2
           (shuffle_calls cuts oc ++ rng_calls w)).
Proof.
  revert acc w. induction cuts as [|c cuts IH]; intros acc w.
  - by destruct w.
  - cbn [pick_controls sample_bins]. rewrite bind_run.
    unfold np_random_shuffle.
    destruct (shuffle_state (rng w) (genes_in_cut oc c)) as [r s'] eqn:Hsh.
    rewrite IH. cbn [heap rng rng_calls fst snd].
    unfold shuffle_calls. cbn [map rev]. by rewrite <- app_assoc.
Qed.

Lemma seed_step_run rs (w : world) :
  (if decide (rs ≠ 0) then np_random_seed rs else mret tt) w =
  if decide (rs = 0 \/ 0 <= rs < 2 ^ 32) then (Ok tt, after_seed rs w)
  else (Raise ValueError, w).
Proof.
  unfold after_seed, np_random_seed.
  destruct (decide (rs ≠ 0)) as [Hne|He].
  - destruct (decide (0 <= rs < 2 ^ 32)), (decide (rs = 0 \/ 0 <= rs < 2 ^ 32));
      try done; exfalso; tauto.
  - destruct (decide (rs = 0 \/ 0 <= rs < 2 ^ 32)) as [|Hn]; [done|].
    exfalso. apply Hn. left. lia.
Qed.

Lemma heap_after_seed rs (w : world) : heap (after_seed rs w) = heap w.
Proof. unfold after_seed. by case_decide. Qed.

(** A successful run of the body, taken apart. *)
Lemma score_genes_body_inv adata gl cs gp nb rs (w : world) lc w' :
  score_genes_body adata gl cs gp nb rs w = (Ok lc, w') ->
  exists ad pool_X n picked tX cX,
    let w1 := after_seed rs w in
    let pool := resolve_gene_pool ad gp in
    let gs := known_genes ad gl in
    let oc := obs_cut_of (obs_avg_of ad pool pool_X) n in
    let sb := sample_bins (np_unique picked) oc cs ∅ (rng w1) in
    heap w !! adata = Some ad /\
    (rs = 0 \/ 0 <= rs < 2 ^ 32) /\
    subset_X ad pool = Ok pool_X /\
    n_items_of (Z.of_nat (length (obs_avg_of ad pool pool_X))) nb = Ok n /\
    series_loc oc (elements gs) = Ok picked /\
    subset_X ad (elements gs) = Ok tX /\
    subset_X ad (elements (sb.1 ∖ gs)) = Ok cX /\
    lc = mkLocals gs oc sb.1 (elements (sb.1 ∖ gs)) (elements gs)
           (zip_with num_sub (mean_axis1 tX) (mean_axis1 cX)) /\
    w' = mkWorld (heap w) sb.2 (shuffle_calls (np_unique picked) oc ++ rng_calls w1).
Proof.
  unfold score_genes_body. rewrite bind_run, seed_step_run.
  destruct (decide (rs = 0 \/ 0 <= rs < 2 ^ 32)) as [Hrs|]; [|done].
  rewrite bind_run. unfold get_adata. rewrite heap_after_seed.
  destruct (heap w !! adata) as [ad|] eqn:Had; [|done].
  rewrite bind_run. unfold lift at 1.
  destruct (subset_X ad (resolve_gene_pool ad gp)) as [pool_X|] eqn:HpX; [|done].
  rewrite bind_run. unfold lift at 1.
  destruct (n_items_of _ nb) as [n|] eqn:Hn; [|done].
  rewrite bind_run. unfold lift at 1.
  destruct (series_loc _ _) as [picked|] eqn:Hpk; [|done].
  rewrite bind_run, pick_controls_run. cbn [fst snd].
  rewrite bind_run. unfold lift at 1.
  destruct (subset_X ad (elements (known_genes ad gl))) as [tX|] eqn:HtX; [|done].
  rewrite bind_run. unfold lift at 1.
  destruct (subset_X ad (elements (_ ∖ _))) as [cX|] eqn:HcX; [|done].
  intros [= <- <-].
  exists ad, pool_X, n, picked, tX, cX. cbn zeta.
  rewrite heap_after_seed. done.
Qed.


(** *** When the body succeeds *)

Lemma subset_X_ok (ad : AnnData) (names : list string) :
  Forall (fun g => g ∈ var_names ad) names ->
  exists m, subset_X ad names = Ok m.
Proof.
  intros Hall. unfold subset_X.
  destruct (mapM (var_index ad) names) as [js|] eqn:Hm; [by eexists|].
  exfalso. assert (is_Some (mapM (var_index ad) names)) as [? Hs]; [|congruence].
  apply mapM_is_Some_2. eapply Forall_impl; [exact Hall|].
  intros g Hg. unfold compose, var_index.
  destruct (list_find_elem_of (fun v => v = g) _ g Hg eq_refl) as [[i x] ->].
  by eexists.
Qed.

Lemma resolve_gene_pool_known (ad : AnnData) gp :
  Forall (fun g => g ∈ var_names ad) (resolve_gene_pool ad gp).
Proof.
  unfold resolve_gene_pool. destruct gp as [[|g pool]|].
  - by apply Forall_forall.
  - apply Forall_forall. intros x Hx. by apply list_elem_of_filter in Hx as [? _].
  - by apply Forall_forall.
Qed.


Lemma length_nanmean_axis0 width m : length (nanmean_axis0 width m) = width.
Proof. unfold nanmean_axis0. by rewrite length_map, length_seq. Qed.

Lemma obs_avg_of_index (ad : AnnData) pool pool_X :
  (obs_avg_of ad pool pool_X).*1 = pool.
Proof.
  unfold obs_avg_of, toarray. destruct (issparse ad);
    apply fst_zip; by rewrite length_nanmean_axis0.
Qed.


Lemma length_rank_min vals : length (rank_min vals) = length vals.
Proof. unfold rank_min. by rewrite length_map. Qed.

Lemma obs_cut_of_index oa n : (obs_cut_of oa n).*1 = oa.*1.
Proof.
  unfold obs_cut_of. apply fst_zip.
  by rewrite !length_fmap, length_rank_min, length_fmap.
Qed.

Lemma genes_in_cut_index oc c g : g ∈ genes_in_cut oc c -> g ∈ oc.*1.
Proof.
  unfold genes_in_cut. intros Hg.
  apply list_elem_of_fmap in Hg as (p & -> & Hp).
  apply list_elem_of_filter in Hp as [_ Hp].
  by apply list_elem_of_fmap_2.
Qed.

Lemma py_slice_to_subseteq {A} (l : list A) n : py_slice_to l n ⊆ l.
Proof. unfold py_slice_to. case_decide; apply subseteq_take. Qed.




(** ** Bins (C1) *)

Lemma obs_cut_of_lookup (oa : series num) n i g v :
  oa !! i = Some (g, v) ->
  obs_cut_of oa n !! i = Some (g, floordiv (rank_of (oa.*2) v) n).
Proof.
  intros Hi. unfold obs_cut_of, rank_min.
  apply lookup_zip_with_Some. exists g, (floordiv (rank_of (oa.*2) v) n).
  split; [done|]. split.
  - by rewrite list_lookup_fmap, Hi.
  - change (map ?f ?l) with (f <$> l).
    by rewrite !list_lookup_fmap, Hi.
Qed.


(** ** What a run depends on, and what it changes *)

(** The outcome of the body is a function of the container it reads and of
    the generator state after lines 61-62; the store is left as it was, also
    when the body raises. *)
Lemma score_genes_body_congr a1 a2 gl cs gp nb rs (w1 w2 : world) :
  heap w1 !! a1 = heap w2 !! a2 ->
  rng (after_seed rs w1) = rng (after_seed rs w2) ->
  (score_genes_body a1 gl cs gp nb rs w1).1 = (score_genes_body a2 gl cs gp nb rs w2).1.
Proof.
  intros Hheap Hrng. unfold score_genes_body.
  rewrite !bind_run, !seed_step_run.
  destruct (decide (rs = 0 \/ 0 <= rs < 2 ^ 32)); [|done].
  rewrite !bind_run. unfold get_adata. rewrite !heap_after_seed, Hheap.
  destruct (heap w2 !! a2) as [ad|]; [|done].
  rewrite !bind_run. unfold lift at 1 6.
  destruct (subset_X ad (resolve_gene_pool ad gp)) as [pool_X|]; [|done].
  rewrite !bind_run. unfold lift at 1 5.
  destruct (n_items_of _ nb) as [n|]; [|done].
  rewrite !bind_run. unfold lift at 1 4.
  destruct (series_loc _ _) as [picked|]; [|done].
  rewrite !bind_run, !pick_controls_run. cbn [fst snd rng]. rewrite Hrng.
  rewrite !bind_run. unfold lift at 1 3.
  destruct (subset_X ad (elements (known_genes ad gl))) as [tX|]; [|done].
  rewrite !bind_run. unfold lift.
  by destruct (subset_X ad (elements (_ ∖ _))) as [cX|].
Qed.

Lemma score_genes_body_heap adata gl cs gp nb rs (w : world) :
  heap (score_genes_body adata gl cs gp nb rs w).2 = heap w.
Proof.
  unfold score_genes_body.
  rewrite bind_run, seed_step_run.
  destruct (decide (rs = 0 \/ 0 <= rs < 2 ^ 32)); [|done].
  rewrite bind_run. unfold get_adata. rewrite heap_after_seed.
  destruct (heap w !! adata) as [ad|]; [|by rewrite <- (heap_after_seed rs w)].
  rewrite bind_run. unfold lift at 1.
  destruct (subset_X ad (resolve_gene_pool ad gp)) as [pool_X|];
    [|by rewrite <- (heap_after_seed rs w)].
  rewrite bind_run. unfold lift at 1.
  destruct (n_items_of _ nb) as [n|]; [|by rewrite <- (heap_after_seed rs w)].
  rewrite bind_run. unfold lift at 1.
  destruct (series_loc _ _) as [picked|]; [|by rewrite <- (heap_after_seed rs w)].
  rewrite bind_run, pick_controls_run. cbn [fst snd].
  rewrite bind_run. unfold lift at 1.
  destruct (subset_X ad (elements (known_genes ad gl))) as [tX|];
    [|by rewrite <- (heap_after_seed rs w)].
  rewrite bind_run. unfold lift.
  destruct (subset_X ad (elements (_ ∖ _))) as [cX|];
    by rewrite <- (heap_after_seed rs w).
Qed.


Lemma resolve_copy_run adata (copy : bool) (w : world) ad :
  heap w !! adata = Some ad ->
  (if copy then adata_copy adata else mret adata) w =
  (Ok (body_adata copy adata w), body_world copy ad w).
Proof.
  intros Had. destruct copy; [|done].
  unfold adata_copy. by rewrite Had.
Qed.

Lemma fresh_not_allocated (w : world) : heap w !! fresh (dom (heap w)) = None.
Proof. apply not_elem_of_dom, is_fresh. Qed.

Lemma body_world_lookup adata (copy : bool) (w : world) ad :
  heap w !! adata = Some ad ->
  heap (body_world copy ad w) !! body_adata copy adata w = Some ad.
Proof.
  intros Had. unfold body_world, body_adata.
  destruct copy; [apply lookup_insert_eq|done].
Qed.

(** The container handed in is still there, unchanged, when the body starts. *)
Lemma body_world_keeps adata (copy : bool) (w : world) ad :
  heap w !! adata = Some ad ->
  heap (body_world copy ad w) !! adata = Some ad.
Proof.
  intros Had. unfold body_world. destruct copy; [|done]. cbn [heap].
  rewrite lookup_insert_ne; [done|].
  intros Heq. pose proof (fresh_not_allocated w) as Hf. congruence.
Qed.


End Runs.



(** ** Runs of the whole function *)

Section WholeRuns.
Context `{NumpyRandom}.

Lemma set_obs_run a name c (w : world) ad :
  heap w !! a = Some ad ->
  set_obs a name c w =
  (Ok tt, mkWorld (<[a := set_obs_column ad name c]> (heap w)) (rng w) (rng_calls w)).
Proof. intros Ha. unfold set_obs. by rewrite Ha. Qed.

(** A successful run of [score_genes], taken apart: the body ran on the
    container resolved at line 59 and the score column was written there. *)
Lemma score_genes_run_inv adata gl cs gp nb name rs (copy : bool) (w : world) r lc w' :
  score_genes_run adata gl cs gp nb name rs copy w = (Ok (r, lc), w') ->
  exists ad w1,
    let a := body_adata copy adata w in
    let w0 := body_world copy ad w in
    heap w !! adata = Some ad /\
    score_genes_body a gl cs gp nb rs w0 = (Ok lc, w1) /\
    r = (if copy then Some a else None) /\
    w' = mkWorld (<[a := set_obs_column ad name (NumCol (l_score lc))]> (heap w0))
                 (rng w1) (rng_calls w1).
Proof.
  unfold score_genes_run. rewrite bind_run.
  destruct (heap w !! adata) as [ad|] eqn:Had.
  - rewrite (resolve_copy_run adata copy w ad Had), bind_run.
    destruct (score_genes_body _ gl cs gp nb rs _) as [[lc1|e] w1] eqn:Hbody; [|done].
    pose proof (score_genes_body_heap (body_adata copy adata w) gl cs gp nb rs
                  (body_world copy ad w)) as Hheap.
    rewrite Hbody in Hheap. cbn [snd] in Hheap.
    rewrite bind_run, (set_obs_run _ _ _ w1 ad).
    + intros [= <- <- <-]. exists ad, w1. cbn zeta. by rewrite Hheap.
    + rewrite Hheap. by apply body_world_lookup.
  - destruct copy.
    + unfold adata_copy. by rewrite Had.
    + unfold mret, M_ret. rewrite bind_run.
      destruct (score_genes_body adata gl cs gp nb rs _) as [[lc1|e] w1] eqn:Hbody;
        [|done].
      apply score_genes_body_inv in Hbody as (ad & ? & ? & ? & ? & ? & Had' & _).
      congruence.
Qed.

Lemma score_genes_run_intro adata gl cs gp nb name rs (copy : bool) (w : world) ad lc w1 :
  let a := body_adata copy adata w in
  let w0 := body_world copy ad w in
  heap w !! adata = Some ad ->
  score_genes_body a gl cs gp nb rs w0 = (Ok lc, w1) ->
  score_genes_run adata gl cs gp nb name rs copy w =
  (Ok (if copy then Some a else None, lc),
   mkWorld (<[a := set_obs_column ad name (NumCol (l_score lc))]> (heap w0))
           (rng w1) (rng_calls w1)).
Proof.
  cbn zeta. intros Had Hbody. unfold score_genes_run.
  rewrite bind_run, (resolve_copy_run adata copy w ad Had), bind_run, Hbody.
  pose proof (score_genes_body_heap (body_adata copy adata w) gl cs gp nb rs
                (body_world copy ad w)) as Hheap.
  rewrite Hbody in Hheap. cbn [snd] in Hheap.
  rewrite bind_run, (set_obs_run _ _ _ w1 ad).
  - by rewrite Hheap.
  - rewrite Hheap. by apply body_world_lookup.
Qed.

Lemma score_genes_of_run adata gl cs gp nb name rs copy (w : world) :
  score_genes adata gl cs gp nb name rs copy w =
  match score_genes_run adata gl cs gp nb name rs copy w with
  | (Ok p, w') => (Ok p.1, w')
  | (Raise e, w') => (Raise e, w')
  end.
Proof. done. Qed.


End WholeRuns.

(** ** An invalid number of bins (C2) *)

Section OneBin.
Context `{NumpyRandom}.


End OneBin.



(** ** Determinism and seeding (C3, C10) *)

Section Seeding.
Context `{NumpyRandom}.

Lemma score_genes_run_raise adata gl cs gp nb name rs (copy : bool) (w : world) ad e w1 :
  heap w !! adata = Some ad ->
  score_genes_body (body_adata copy adata w) gl cs gp nb rs (body_world copy ad w)
  = (Raise e, w1) ->
  score_genes_run adata gl cs gp nb name rs copy w = (Raise e, w1).
Proof.
  intros Had Hbody. unfold score_genes_run.
  by rewrite bind_run, (resolve_copy_run adata copy w ad Had), bind_run, Hbody.
Qed.

Lemma rng_after_seed rs (w : world) :
  rng (after_seed rs w) = if decide (rs = 0) then rng w else seed_state rs.
Proof. unfold after_seed. destruct (decide (rs ≠ 0)), (decide (rs = 0)); done. Qed.

Lemma rng_body_world (copy : bool) ad (w : world) : rng (body_world copy ad w) = rng w.
Proof. unfold body_world. by destruct copy. Qed.

Lemma rng_calls_body_world (copy : bool) ad (w : world) :
  rng_calls (body_world copy ad w) = rng_calls w.
Proof. unfold body_world. by destruct copy. Qed.

(** Determinism under a seed that is used (the part of C3 that the code
    keeps): for every non-zero [random_state], two invocations of
    [score_genes] with the same arguments on containers with the same
    contents end the same way and, when they succeed, with the same
    control genes and the same score vector, whatever the state of the
    generator at either call; with [random_state = 0] this holds when the
    generator is in the same state at both calls. *)
Theorem seeded_runs_agree a1 a2 gl cs gp nb name rs (copy : bool) (w1 w2 : world) :
  heap w1 !! a1 = heap w2 !! a2 ->
  rs ≠ 0 \/ rng w1 = rng w2 ->
  locals_of_run (score_genes_run a1 gl cs gp nb name rs copy w1)
  = locals_of_run (score_genes_run a2 gl cs gp nb name rs copy w2).
Proof.
  intros Hheap Hrs.
  destruct (heap w2 !! a2) as [ad|] eqn:Had2.
  - pose proof (score_genes_body_congr
      (body_adata copy a1 w1) (body_adata copy a2 w2) gl cs gp nb rs
      (body_world copy ad w1) (body_world copy ad w2)) as Hcongr.
    rewrite !body_world_lookup, !rng_after_seed, !rng_body_world in Hcongr by done.
    specialize (Hcongr eq_refl).
    destruct (score_genes_body (body_adata copy a1 w1) gl cs gp nb rs _)
      as [[lc1|e1] w1'] eqn:Hb1;
    destruct (score_genes_body (body_adata copy a2 w2) gl cs gp nb rs _)
      as [[lc2|e2] w2'] eqn:Hb2.
    all: cbn [fst] in Hcongr.
    all: try (rewrite (score_genes_run_intro a1 gl cs gp nb name rs copy w1 ad _ _ Hheap Hb1)).
    all: try (rewrite (score_genes_run_intro a2 gl cs gp nb name rs copy w2 ad _ _ Had2 Hb2)).
    all: try (rewrite (score_genes_run_raise a1 gl cs gp nb name rs copy w1 ad _ _ Hheap Hb1)).
    all: try (rewrite (score_genes_run_raise a2 gl cs gp nb name rs copy w2 ad _ _ Had2 Hb2)).
    all: unfold locals_of_run; cbn [fst snd].
    all: apply Hcongr; case_decide; [by destruct Hrs|done].
  - destruct copy.
    + unfold score_genes_run. rewrite !bind_run. unfold adata_copy.
      by rewrite Hheap, Had2.
    + pose proof (score_genes_body_congr a1 a2 gl cs gp nb rs w1 w2) as Hcongr.
      rewrite !rng_after_seed in Hcongr.
      specialize (Hcongr ltac:(congruence)
                         ltac:(case_decide; [by destruct Hrs|done])).
      unfold score_genes_run, locals_of_run. rewrite !bind_run.
      unfold mret at 1 3, M_ret. rewrite !bind_run.
      destruct (score_genes_body a1 gl cs gp nb rs w1) as [[lc1|e1] w1'] eqn:Hb1.
      { apply score_genes_body_inv in Hb1 as (? & ? & ? & ? & ? & ? & Hx & _).
        congruence. }
      destruct (score_genes_body a2 gl cs gp nb rs w2) as [[lc2|e2] w2'] eqn:Hb2.
      { apply score_genes_body_inv in Hb2 as (? & ? & ? & ? & ? & ? & Hx & _).
        congruence. }
      exact Hcongr.
Qed.

End Seeding.

Lemma seeded_runs_agree_witness :
  locals_of_run (score_genes_run 0%nat ["C"]%string 2 None 3 "score" 7 true ex_world)
  = locals_of_run (score_genes_run 0%nat ["C"]%string 2 None 3 "score" 7 true
                     (mkWorld {[ 0%nat := ex_adata ]} 4%nat [CallShuffle []])).
Proof.
  apply (seeded_runs_agree 0%nat 0%nat ["C"]%string 2 None 3 "score" 7 true).
  - reflexivity.
  - left. lia.
Defined.

(** C3 asks for identical scores and control genes from two invocations
    with the same fixed seed; the code breaks it for the documented default
    [random_state = 0], which line 61 takes for "no seed": calling
    [score_genes] twice in a row, on a container that the first call leaves
    as it was ([copy = True]), selects the control genes [D] and then
    [E, D], and gives the scores -1 and then -3/2. *)
Lemma unseeded_runs_differ :
  exists r1 lc1 w1 r2 lc2 w2,
    score_genes_run 0%nat ["C"]%string 2 None 3 "score" 0 true ex_world
    = (Ok (r1, lc1), w1) /\
    score_genes_run 0%nat ["C"]%string 2 None 3 "score" 0 true w1
    = (Ok (r2, lc2), w2) /\
    heap w1 !! 0%nat = heap ex_world !! 0%nat /\
    l_control_genes lc1 = ["D"]%string /\
    l_control_genes lc2 = ["E"; "D"]%string /\
    l_score lc1 = [Fin (-1); Fin (-1)] /\
    l_score lc2 = [Fin (-3 # 2); Fin (-3 # 2)].
Proof.
  eexists _, _, _, _, _, _.
  split; [vm_compute; reflexivity|].
  split; [vm_compute; reflexivity|].
  split_and!; by vm_compute.
Qed.

Section SeedCalls.
Context `{NumpyRandom}.

Lemma shuffle_calls_no_seed cuts oc :
  Forall (fun c => is_seed_call c = false) (shuffle_calls cuts oc).
Proof.
  unfold shuffle_calls. apply Forall_rev, Forall_forall.
  intros c Hc. by apply list_elem_of_fmap in Hc as (x & -> & _).
Qed.

Lemma after_seed_zero (w : world) : after_seed 0 w = w.
Proof. unfold after_seed. by case_decide. Qed.

(** With [random_state = 0] the body only ever shuffles, however it ends. *)
Lemma unseeded_body_calls adata gl cs gp nb (w : world) :
  exists new,
    rng_calls (score_genes_body adata gl cs gp nb 0 w).2 = new ++ rng_calls w /\
    Forall (fun c => is_seed_call c = false) new.
Proof.
  unfold score_genes_body.
  rewrite bind_run, seed_step_run, after_seed_zero.
  destruct (decide (0 = 0 \/ 0 <= 0 < 2 ^ 32)); [|by exists []].
  rewrite bind_run. unfold get_adata.
  destruct (heap w !! adata) as [ad|]; [|by exists []].
  rewrite bind_run. unfold lift at 1.
  destruct (subset_X ad (resolve_gene_pool ad gp)) as [pool_X|]; [|by exists []].
  rewrite bind_run. unfold lift at 1.
  destruct (n_items_of _ nb) as [n|]; [|by exists []].
  rewrite bind_run. unfold lift at 1.
  destruct (series_loc _ _) as [picked|]; [|by exists []].
  rewrite bind_run, pick_controls_run. cbn [fst snd].
  eexists. split; [|apply shuffle_calls_no_seed].
  rewrite bind_run. unfold lift at 1.
  destruct (subset_X ad (elements (known_genes ad gl))) as [tX|]; [|done].
  rewrite bind_run. unfold lift.
  by destruct (subset_X ad (elements (_ ∖ _))) as [cX|].
Qed.

(** C10: with [random_state = 0] a run of [score_genes] makes no call of
    [seed] on the generator, however it ends; when it succeeds, the
    sampling loop started in the generator state found at the call (in the
    seeded state only for a non-zero [random_state], after exactly one call
    of [seed]), so the genes sampled and the state left behind are those
    the loop computes from that state. *)
Theorem seeding_only_when_truthy adata gl cs gp nb name rs (copy : bool) (w : world) :
  (rs = 0 ->
   exists new,
     rng_calls (score_genes_run adata gl cs gp nb name rs copy w).2
     = new ++ rng_calls w /\
     Forall (fun c => is_seed_call c = false) new) /\
  (forall r lc w',
     score_genes_run adata gl cs gp nb name rs copy w = (Ok (r, lc), w') ->
     let s0 := if decide (rs = 0) then rng w else seed_state rs in
     exists picked,
       series_loc (l_obs_cut lc) (elements (l_gene_set lc)) = Ok picked /\
       l_sampled lc = (sample_bins (np_unique picked) (l_obs_cut lc) cs ∅ s0).1 /\
       rng w' = (sample_bins (np_unique picked) (l_obs_cut lc) cs ∅ s0).2 /\
       rng_calls w'
       = shuffle_calls (np_unique picked) (l_obs_cut lc)
         ++ (if decide (rs = 0) then [] else [CallSeed rs]) ++ rng_calls w).
Proof.
  split.
  - intros ->.
    destruct (heap w !! adata) as [ad|] eqn:Had.
    + destruct (unseeded_body_calls (body_adata copy adata w) gl cs gp nb
                  (body_world copy ad w)) as (new & Hnew & Hall).
      rewrite rng_calls_body_world in Hnew.
      exists new. split; [|done].
      destruct (score_genes_body _ gl cs gp nb 0 _) as [[lc|e] w1] eqn:Hb.
      * by rewrite (score_genes_run_intro adata gl cs gp nb name 0 copy w ad _ _ Had Hb).
      * by rewrite (score_genes_run_raise adata gl cs gp nb name 0 copy w ad _ _ Had Hb).
    + destruct copy.
      * exists []. split; [|done].
        unfold score_genes_run. rewrite bind_run. unfold adata_copy. by rewrite Had.
      * destruct (unseeded_body_calls adata gl cs gp nb w) as (new & Hnew & Hall).
        exists new. split; [|done].
        unfold score_genes_run. rewrite bind_run. unfold mret at 1, M_ret.
        rewrite bind_run.
        destruct (score_genes_body adata gl cs gp nb 0 w) as [[lc|e] w1] eqn:Hb; [|done].
        apply score_genes_body_inv in Hb as (? & ? & ? & ? & ? & ? & Hx & _).
        congruence.
  - intros r lc w' Hrun.
    apply score_genes_run_inv in Hrun as (ad & w1 & Had & Hbody & _ & ->).
    apply score_genes_body_inv in Hbody
      as (ad' & pool_X & n & picked & tX & cX & _ & _ & _ & _ & Hpk & _ & _ & -> & ->).
    cbn [l_obs_cut l_gene_set l_sampled rng rng_calls].
    exists picked. rewrite rng_after_seed, rng_body_world.
    split_and!; try done.
    unfold after_seed. rewrite rng_calls_body_world.
    destruct (decide (rs ≠ 0)), (decide (rs = 0)); try done;
      cbn [rng_calls app]; by rewrite ?rng_calls_body_world.
Qed.

End SeedCalls.

Lemma seeding_only_when_truthy_witness :
  (exists new,
     rng_calls (score_genes_run 0%nat ["C"]%string 2 None 3 "score" 0 false ex_world).2
     = new ++ rng_calls ex_world /\
     Forall (fun c => is_seed_call c = false) new) /\
  (exists r lc w' picked,
     score_genes_run 0%nat ["C"]%string 2 None 3 "score" 0 false ex_world
     = (Ok (r, lc), w') /\
     l_sampled lc
     = (sample_bins (np_unique picked) (l_obs_cut lc) 2 ∅ (rng ex_world)).1).
Proof.
  pose proof (seeding_only_when_truthy 0%nat ["C"]%string 2 None 3 "score" 0 false
                ex_world) as [Hcalls Hstate].
  split; [exact (Hcalls eq_refl)|].
  destruct (score_genes_run 0%nat ["C"]%string 2 None 3 "score" 0 false ex_world)
    as [[[r lc]|e] w'] eqn:Hrun; [|by vm_compute in Hrun].
  destruct (Hstate r lc w' eq_refl) as (picked & _ & Hs & _).
  by exists r, lc, w', picked.
Defined.

(** ** Phases (C4) *)

Section Phase.

Lemma assign_phase_lookup (S_score G2M_score : list num) i s g :
  S_score !! i = Some s -> G2M_score !! i = Some g ->
  assign_phase S_score G2M_score !! i = Some (phase_of s g).
Proof.
  intros Hs Hg. unfold assign_phase, mask_assign, phase_of.
  change (map ?f ?l) with (f <$> l).
  rewrite !lookup_zip_with, list_lookup_fmap, !lookup_zip_with, Hs, Hg.
  cbn. by destruct (num_ltb s (Fin 0) && num_ltb g (Fin 0)), (num_ltb s g).
Qed.

Lemma length_assign_phase (S_score G2M_score : list num) :
  length S_score = length G2M_score ->
  length (assign_phase S_score G2M_score) = length S_score.
Proof.
  intros Hlen. unfold assign_phase, mask_assign.
  rewrite !length_zip_with, length_map, length_zip_with. lia.
Qed.

End Phase.

(** ** Runs of [score_genes_cell_cycle] *)

Section CellCycle.
Context `{NumpyRandom}.

Lemma call_score_genes_accepted a gl name c kw :
  kwargs_accepted kw ->
  call_score_genes a gl name c kw =
  score_genes a gl c (default None (kw_gene_pool kw)) (default 25 (kw_n_bins kw))
    name (default 0 (kw_random_state kw)) false.
Proof.
  intros (Hgl & Hname & Hcs & Hother). unfold call_score_genes.
  rewrite bool_decide_eq_false_2; [done|].
  rewrite Hgl, Hname, Hcs, Hother.
  intros [[? [=]]|[[? [=]]|[[? [=]]|?]]]. done.
Qed.

(** A keyword that repeats [gene_list], [score_name] or [ctrl_size], or that
    [score_genes] does not know, stops the call before the body runs. *)
Lemma call_score_genes_rejected a gl name c kw (w : world) :
  ¬ kwargs_accepted kw ->
  call_score_genes a gl name c kw w = (Raise TypeError, w).
Proof.
  intros Hrej. unfold call_score_genes.
  rewrite bool_decide_eq_true_2; [done|].
  unfold kwargs_accepted in Hrej.
  destruct (kw_gene_list kw); [left; by eexists|].
  destruct (kw_score_name kw); [right; left; by eexists|].
  destruct (kw_ctrl_size kw); [right; right; left; by eexists|].
  right; right; right. intros Hnil. by apply Hrej.
Qed.

Lemma score_genes_inplace_intro a gl cs gp nb name rs (w : world) ad lc w1 :
  heap w !! a = Some ad ->
  score_genes_body a gl cs gp nb rs w = (Ok lc, w1) ->
  score_genes a gl cs gp nb name rs false w =
  (Ok None,
   mkWorld (<[a := set_obs_column ad name (NumCol (l_score lc))]> (heap w))
           (rng w1) (rng_calls w1)).
Proof.
  intros Ha Hbody. rewrite score_genes_of_run.
  by rewrite (score_genes_run_intro a gl cs gp nb name rs false w ad lc w1 Ha Hbody).
Qed.

Lemma score_genes_inplace_inv a gl cs gp nb name rs (w : world) r w' :
  score_genes a gl cs gp nb name rs false w = (Ok r, w') ->
  exists ad lc w1,
    heap w !! a = Some ad /\
    score_genes_body a gl cs gp nb rs w = (Ok lc, w1) /\
    r = None /\
    w' = mkWorld (<[a := set_obs_column ad name (NumCol (l_score lc))]> (heap w))
                 (rng w1) (rng_calls w1).
Proof.
  rewrite score_genes_of_run.
  destruct (score_genes_run a gl cs gp nb name rs false w) as [[[r0 lc]|e] w0] eqn:Hrun;
    [|done].
  intros [= <- <-].
  apply score_genes_run_inv in Hrun as (ad & w1 & Ha & Hbody & -> & ->).
  by exists ad, lc, w1.
Qed.


Lemma write_phase_inv a (w : world) w' :
  write_phase a w = (Ok tt, w') ->
  exists ad s g,
    heap w !! a = Some ad /\
    obs ad !! "S_score"%string = Some (NumCol s) /\
    obs ad !! "G2M_score"%string = Some (NumCol g) /\
    w' = mkWorld (<[a := set_obs_column ad "phase" (StrCol (assign_phase s g))]> (heap w))
                 (rng w) (rng_calls w).
Proof.
  unfold write_phase. rewrite bind_run. unfold get_adata.
  destruct (heap w !! a) as [ad|] eqn:Ha; [|done].
  rewrite bind_run. unfold lift, get_scores.
  destruct (obs ad !! "S_score"%string) as [[s|]|] eqn:Hs; try done.
  destruct (obs ad !! "G2M_score"%string) as [[g|]|] eqn:Hg; try done.
  rewrite (set_obs_run a _ _ w ad Ha). intros [= <-].
  by exists ad, s, g.
Qed.

(** The world after the first call of the scorer. *)
Lemma scored_twice_obs (ad : AnnData) (s g : list num) :
  let ad2 := set_obs_column (set_obs_column ad "S_score" (NumCol s))
                            "G2M_score" (NumCol g) in
  obs ad2 !! "S_score"%string = Some (NumCol s) /\
  obs ad2 !! "G2M_score"%string = Some (NumCol g).
Proof.
  cbn. split.
  - rewrite lookup_insert_ne by done. apply lookup_insert_eq.
  - apply lookup_insert_eq.
Qed.

(** A successful run of [score_genes_cell_cycle], taken apart: two runs of
    the body of the scorer with [ctrl_size = min(len(s_genes),
    len(g2m_genes))] on the resolved container, then the three columns. *)
Lemma cell_cycle_inv adata s_genes g2m_genes (copy : bool) kw (w : world) r w' :
  score_genes_cell_cycle adata s_genes g2m_genes copy kw w = (Ok r, w') ->
  exists ad lc1 w1 lc2 w2,
    let a := body_adata copy adata w in
    let w0 := body_world copy ad w in
    let cs := Z.min (Z.of_nat (length s_genes)) (Z.of_nat (length g2m_genes)) in
    let gp := default None (kw_gene_pool kw) in
    let nb := default 25 (kw_n_bins kw) in
    let rs := default 0 (kw_random_state kw) in
    kwargs_accepted kw /\
    heap w !! adata = Some ad /\
    score_genes_body a s_genes cs gp nb rs w0 = (Ok lc1, w1) /\
    score_genes_body a g2m_genes cs gp nb rs
      (mkWorld (<[a := set_obs_column ad "S_score" (NumCol (l_score lc1))]> (heap w0))
               (rng w1) (rng_calls w1)) = (Ok lc2, w2) /\
    r = (if copy then Some a else None) /\
    w' = mkWorld (<[a := with_cell_cycle ad (l_score lc1) (l_score lc2)]> (heap w0))
                 (rng w2) (rng_calls w2).
Proof.
  unfold score_genes_cell_cycle. rewrite bind_run.
  destruct (decide (kwargs_accepted kw)) as [Hkw|Hkw]; cycle 1.
  { destruct ((if copy then adata_copy adata else mret adata) w) as [[a|e] w0]; [|done].
    by rewrite bind_run, call_score_genes_rejected. }
  destruct (heap w !! adata) as [ad|] eqn:Had; cycle 1.
  { destruct copy.
    - unfold adata_copy. by rewrite Had.
    - unfold mret at 1, M_ret. rewrite bind_run, call_score_genes_accepted by done.
      destruct (score_genes adata _ _ _ _ _ _ false w) as [[r0|e] w0] eqn:Hsg; [|done].
      apply score_genes_inplace_inv in Hsg as (ad & _ & _ & Hx & _). congruence. }
  rewrite (resolve_copy_run adata copy w ad Had).
  set (a := body_adata copy adata w). set (w0 := body_world copy ad w).
  pose proof (body_world_lookup adata copy w ad Had) as Ha. fold a w0 in Ha.
  rewrite bind_run, call_score_genes_accepted by done.
  destruct (score_genes a s_genes _ _ _ _ _ false w0) as [[r1|e] w1'] eqn:Hsg1; [|done].
  apply score_genes_inplace_inv in Hsg1 as (ad1 & lc1 & w1 & Ha1 & Hb1 & -> & ->).
  assert (ad1 = ad) as -> by congruence.
  rewrite bind_run, call_score_genes_accepted by done.
  destruct (score_genes a g2m_genes _ _ _ _ _ false _) as [[r2|e] w2'] eqn:Hsg2; [|done].
  apply score_genes_inplace_inv in Hsg2 as (ad2 & lc2 & w2 & Ha2 & Hb2 & -> & ->).
  cbn [heap] in Ha2. rewrite lookup_insert_eq in Ha2. injection Ha2 as <-.
  rewrite bind_run.
  destruct (write_phase a _) as [[[]|e] w3] eqn:Hwp; [|done].
  apply write_phase_inv in Hwp as (ad3 & s & g & Ha3 & Hs & Hg & ->).
  cbn [heap] in Ha3. rewrite lookup_insert_eq in Ha3. injection Ha3 as <-.
  destruct (scored_twice_obs ad (l_score lc1) (l_score lc2)) as [Hs' Hg'].
  cbn zeta in Hs', Hg'. rewrite Hs' in Hs. rewrite Hg' in Hg.
  injection Hs as <-. injection Hg as <-.
  intros [= <- <-].
  exists ad, lc1, w1, lc2, w2. cbn zeta. fold a w0.
  split_and!; try done.
  cbn [heap rng rng_calls]. by rewrite !insert_insert_eq.
Qed.



(** C4: after a successful run of [score_genes_cell_cycle] the resolved
    container holds the columns [S_score], [G2M_score] and [phase], and for
    every cell: both scores strictly negative give ["G1"], also when
    [G2M_score > S_score]; otherwise [G2M_score > S_score] gives ["G2M"], and
    anything else the default ["S"]. *)
Theorem both_negative_is_G1 adata s_genes g2m_genes (copy : bool) kw (w : world) r w' :
  score_genes_cell_cycle adata s_genes g2m_genes copy kw w = (Ok r, w') ->
  exists ad' S_score G2M_score phase,
    heap w' !! body_adata copy adata w = Some ad' /\
    obs ad' !! "S_score"%string = Some (NumCol S_score) /\
    obs ad' !! "G2M_score"%string = Some (NumCol G2M_score) /\
    obs ad' !! "phase"%string = Some (StrCol phase) /\
    forall i s g,
      S_score !! i = Some s -> G2M_score !! i = Some g ->
      let both_negative := num_ltb s (Fin 0) && num_ltb g (Fin 0) in
      (both_negative = true -> phase !! i = Some "G1"%string) /\
      (both_negative = false -> num_ltb s g = true -> phase !! i = Some "G2M"%string) /\
      (both_negative = false -> num_ltb s g = false -> phase !! i = Some "S"%string).
Proof.
  intros Hrun.
  apply cell_cycle_inv in Hrun
    as (ad & lc1 & w1 & lc2 & w2 & _ & _ & _ & _ & _ & ->).
  exists (with_cell_cycle ad (l_score lc1) (l_score lc2)),
    (l_score lc1), (l_score lc2), (assign_phase (l_score lc1) (l_score lc2)).
  split; [apply lookup_insert_eq|].
  split; [cbn; by rewrite !lookup_insert_ne, lookup_insert_eq by done|].
  split; [cbn; by rewrite lookup_insert_ne, lookup_insert_eq by done|].
  split; [cbn; apply lookup_insert_eq|].
  intros i s g Hs Hg. cbn zeta.
  rewrite (assign_phase_lookup _ _ _ _ _ Hs Hg). unfold phase_of.
  split_and!; intros; by repeat match goal with Heq : _ = _ |- _ => rewrite Heq end.
Qed.

(** C6, as amended: a call of [score_genes_cell_cycle] whose keyword
    arguments supply [ctrl_size] raises [TypeError] at the first call of the
    scorer, before anything is scored (the value is rejected, not
    overridden); a call whose keyword arguments are accepted invokes the
    scorer twice with [ctrl_size = min(len(s_genes), len(g2m_genes))]. *)
Theorem ctrl_size_forced_or_rejected adata s_genes g2m_genes (copy : bool) kw (w : world) ad :
  heap w !! adata = Some ad ->
  (is_Some (kw_ctrl_size kw) ->
   score_genes_cell_cycle adata s_genes g2m_genes copy kw w
   = (Raise TypeError, body_world copy ad w)) /\
  (kwargs_accepted kw ->
   let ctrl_size := Z.min (Z.of_nat (length s_genes)) (Z.of_nat (length g2m_genes)) in
   let gp := default None (kw_gene_pool kw) in
   let nb := default 25 (kw_n_bins kw) in
   let rs := default 0 (kw_random_state kw) in
   score_genes_cell_cycle adata s_genes g2m_genes copy kw w =
   (a ← (if copy then adata_copy adata else mret adata);
    score_genes a s_genes ctrl_size gp nb "S_score" rs false;;
    score_genes a g2m_genes ctrl_size gp nb "G2M_score" rs false;;
    write_phase a;;
    mret (if copy then Some a else None)) w).
Proof.
  intros Had. split.
  - intros [c Hc]. unfold score_genes_cell_cycle.
    rewrite bind_run, (resolve_copy_run adata copy w ad Had), bind_run.
    rewrite call_score_genes_rejected; [done|].
    intros (_ & _ & Hnone & _). congruence.
  - intros Hkw. cbn zeta. unfold score_genes_cell_cycle.
    rewrite !bind_run.
    destruct ((if copy then adata_copy adata else mret adata) w) as [[a|e] w0]; [|done].
    cbv beta iota zeta. rewrite !bind_run.
    rewrite (call_score_genes_accepted a s_genes "S_score" _ kw Hkw).
    destruct (score_genes a s_genes _ _ _ _ _ false w0) as [[r1|e] w1]; [|done].
    cbv beta iota zeta. by rewrite !bind_run, !call_score_genes_accepted by done.
Qed.


End CellCycle.

Lemma both_negative_is_G1_witness :
  exists w' ad' S_score G2M_score phase,
    score_genes_cell_cycle 0%nat ["A"; "B"; "C"]%string ["A"; "C"]%string false
      ex_kwargs ex_world = (Ok None, w') /\
    heap w' !! 0%nat = Some ad' /\
    obs ad' !! "S_score"%string = Some (NumCol S_score) /\
    obs ad' !! "G2M_score"%string = Some (NumCol G2M_score) /\
    obs ad' !! "phase"%string = Some (StrCol phase) /\
    S_score !! 0%nat = Some (Fin (-15 # 6)) /\
    G2M_score !! 0%nat = Some (Fin (-4 # 4)) /\
    phase !! 0%nat = Some "G1"%string.
Proof.
  eassert (score_genes_cell_cycle 0%nat ["A"; "B"; "C"]%string ["A"; "C"]%string false
             ex_kwargs ex_world = (Ok None, _)) as Hrun
    by (vm_compute; reflexivity).
  destruct (both_negative_is_G1 _ _ _ _ _ _ _ _ Hrun)
    as (ad' & S_score & G2M_score & phase & Hh & HS & HG & Hph & Hall).
  vm_compute in Hh. injection Hh as <-.
  vm_compute in HS. injection HS as <-.
  vm_compute in HG. injection HG as <-.
  destruct (Hall 0%nat (Fin (-15 # 6)) (Fin (-4 # 4)) eq_refl eq_refl) as [HG1 _].
  eexists _, _, _, _, phase.
  split; [exact Hrun|]. split; [vm_compute; reflexivity|].
  split; [vm_compute; reflexivity|]. split; [vm_compute; reflexivity|].
  split; [exact Hph|]. split; [reflexivity|]. split; [reflexivity|].
  apply HG1. reflexivity.
Defined.

Lemma ctrl_size_forced_or_rejected_witness :
  score_genes_cell_cycle 0%nat ["A"; "B"; "C"]%string ["A"; "C"]%string false
    ex_kwargs_ctrl ex_world = (Raise TypeError, ex_world).
Proof.
  destruct (ctrl_size_forced_or_rejected 0%nat ["A"; "B"; "C"]%string ["A"; "C"]%string
              false ex_kwargs_ctrl ex_world ex_adata eq_refl) as [Hrej _].
  apply Hrej. by eexists.
Defined.

(** C6, as stated, fails: with [ctrl_size = 7] among the keyword arguments
    the scorer is not invoked with the forced value, the call raises
    [TypeError] and nothing is scored; the same call without that keyword
    succeeds. *)
Lemma ctrl_size_keyword_not_overridden :
  score_genes_cell_cycle 0%nat ["A"; "B"; "C"]%string ["A"; "C"]%string false
    ex_kwargs_ctrl ex_world = (Raise TypeError, ex_world) /\
  exists w',
    score_genes_cell_cycle 0%nat ["A"; "B"; "C"]%string ["A"; "C"]%string false
      ex_kwargs ex_world = (Ok None, w') /\
    (heap w' !! 0%nat) ≫= (fun ad => obs ad !! "S_score"%string)
    = Some (NumCol [Fin (-15 # 6); Fin (-15 # 6)]).
Proof.
  split; [vm_compute; reflexivity|].
  eexists. split; [vm_compute; reflexivity|]. by vm_compute.
Qed.


(** ** Target and control genes (C5, C9) *)

Section Genes.
Context `{NumpyRandom}.

(** C5: in every run of [score_genes] that reaches the score computation,
    the control genes are disjoint from the filtered [gene_list], and the
    score is the row mean over the [gene_list] columns minus the row mean
    over exactly those control columns. *)
Theorem control_genes_disjoint adata gl cs gp nb name rs (copy : bool) (w : world) r lc w' :
  score_genes_run adata gl cs gp nb name rs copy w = (Ok (r, lc), w') ->
  (forall g, g ∈ l_control_genes lc -> g ∉ l_gene_list lc) /\
  (forall g, g ∈ l_gene_list lc <-> g ∈ l_gene_set lc) /\
  (forall g, g ∈ l_control_genes lc <-> g ∈ l_sampled lc /\ g ∉ l_gene_set lc) /\
  exists ad target_X control_X,
    heap w !! adata = Some ad /\
    l_gene_set lc = known_genes ad gl /\
    subset_X ad (l_gene_list lc) = Ok target_X /\
    subset_X ad (l_control_genes lc) = Ok control_X /\
    l_score lc = zip_with num_sub (mean_axis1 target_X) (mean_axis1 control_X).
Proof.
  intros Hrun.
  apply score_genes_run_inv in Hrun as (ad & w1 & Had & Hbody & _ & _).
  apply score_genes_body_inv in Hbody
    as (ad' & pool_X & n & picked & tX & cX & Had' & _ & _ & _ & _ & HtX & HcX & -> & _).
  rewrite (body_world_lookup adata copy w ad Had) in Had'. injection Had' as <-.
  cbn [l_control_genes l_gene_list l_gene_set l_sampled l_score].
  split_and!.
  - intros g. rewrite !elem_of_elements, elem_of_difference. tauto.
  - intros g. by rewrite elem_of_elements.
  - intros g. by rewrite elem_of_elements, elem_of_difference.
  - by exists ad, tX, cX.
Qed.

Lemma known_genes_drop_unknown (ad : AnnData) (gl unknown : list string) :
  Forall (fun u => u ∉ var_names ad) unknown ->
  known_genes ad (filter (fun x => x ∉ unknown) gl) = known_genes ad gl.
Proof.
  intros Hun. unfold known_genes. f_equal.
  rewrite list_filter_filter. apply list_filter_iff.
  intros x. split; [tauto|]. intros Hx. split; [done|].
  intros Hu. rewrite Forall_forall in Hun. by apply (Hun x).
Qed.

(** The body reads [gene_list] through [known_genes] only. *)
Lemma score_genes_body_gene_list a gl1 gl2 cs gp nb rs (w : world) :
  (forall ad, heap w !! a = Some ad -> known_genes ad gl1 = known_genes ad gl2) ->
  score_genes_body a gl1 cs gp nb rs w = score_genes_body a gl2 cs gp nb rs w.
Proof.
  intros Hext. unfold score_genes_body.
  rewrite !bind_run, seed_step_run.
  destruct (decide (rs = 0 \/ 0 <= rs < 2 ^ 32)); [|done].
  rewrite !bind_run. unfold get_adata. rewrite heap_after_seed.
  destruct (heap w !! a) as [ad|] eqn:Ha; [|done].
  cbv zeta. by rewrite (Hext ad eq_refl).
Qed.

(** C9: names that are no variable of the matrix can be added to or
    removed from [gene_list] without changing anything in the run: the
    outcome, the control genes, the scores and the world reached are the
    same (the generator being in the same state, as it is one world). *)
Theorem unknown_genes_ignored adata gl unknown cs gp nb name rs (copy : bool) (w : world) ad :
  heap w !! adata = Some ad ->
  Forall (fun u => u ∉ var_names ad) unknown ->
  score_genes_run adata gl cs gp nb name rs copy w
  = score_genes_run adata (filter (fun x => x ∉ unknown) gl) cs gp nb name rs copy w
  /\ score_genes adata gl cs gp nb name rs copy w
     = score_genes adata (filter (fun x => x ∉ unknown) gl) cs gp nb name rs copy w.
Proof.
  intros Had Hun.
  assert (score_genes_run adata gl cs gp nb name rs copy w
          = score_genes_run adata (filter (fun x => x ∉ unknown) gl) cs gp nb name rs
              copy w) as Heq.
  { unfold score_genes_run.
    rewrite !bind_run, (resolve_copy_run adata copy w ad Had).
    cbv beta iota. rewrite !bind_run.
    rewrite (score_genes_body_gene_list _ gl (filter (fun x => x ∉ unknown) gl)); [done|].
    intros ad' Had'.
    rewrite (body_world_lookup adata copy w ad Had) in Had'. injection Had' as <-.
    symmetry. by apply known_genes_drop_unknown. }
  split; [done|]. by rewrite !score_genes_of_run, Heq.
Qed.

End Genes.

Lemma control_genes_disjoint_witness :
  exists r lc w',
    score_genes_run 0%nat ["C"]%string 2 None 3 "score" 0 false ex_world
    = (Ok (r, lc), w') /\
    (forall g, g ∈ l_control_genes lc -> g ∉ l_gene_list lc).
Proof.
  eassert (score_genes_run 0%nat ["C"]%string 2 None 3 "score" 0 false ex_world
           = (Ok (_, _), _)) as Hrun by (vm_compute; reflexivity).
  eexists _, _, _. split; [exact Hrun|].
  exact (proj1 (control_genes_disjoint _ _ _ _ _ _ _ _ _ _ _ _ Hrun)).
Defined.

Lemma unknown_genes_ignored_witness :
  score_genes 0%nat ["zz"; "C"; "yy"]%string 2 None 3 "score" 0 false ex_world
  = score_genes 0%nat ["C"]%string 2 None 3 "score" 0 false ex_world.
Proof.
  apply (unknown_genes_ignored 0%nat ["zz"; "C"; "yy"]%string ["zz"; "yy"]%string
           2 None 3 "score"%string 0 false ex_world ex_adata).
  - reflexivity.
  - apply (bool_decide_unpack
             (Forall (fun u => u ∉ var_names ex_adata) ["zz"; "yy"]%string)).
    by vm_compute.
Defined.

(** ** The number of genes drawn from a bin (C8) *)

Section BinDraw.
Context `{NumpyRandom}.

Lemma fst_unique (l : list (string * option Z)) g v v' :
  NoDup (l.*1) -> (g, v) ∈ l -> (g, v') ∈ l -> v = v'.
Proof.
  intros Hnd Hv Hv'.
  apply list_elem_of_lookup in Hv as [i Hi].
  apply list_elem_of_lookup in Hv' as [j Hj].
  assert (i = j) as ->.
  { apply (NoDup_lookup (l.*1) i j g Hnd); rewrite list_lookup_fmap.
    - by rewrite Hi.
    - by rewrite Hj. }
  congruence.
Qed.

Lemma cut_eqb_true (a b : option Z) :
  cut_eqb a b = true <-> exists z, a = Some z /\ b = Some z.
Proof.
  destruct a as [x|], b as [y|]; cbn; try (split; [done|by intros (? & ? & ?)]).
  rewrite bool_decide_eq_true. split.
  - intros ->. by exists y.
  - intros (z & [= ->] & [= ->]). done.
Qed.

Lemma genes_in_cut_spec (oc : list (string * option Z)) c g :
  g ∈ genes_in_cut oc c <-> exists z, c = Some z /\ (g, Some z) ∈ oc.
Proof.
  unfold genes_in_cut. rewrite list_elem_of_fmap. split.
  - intros ([g' v] & -> & Hp). apply list_elem_of_filter in Hp as [Heq Hin].
    apply cut_eqb_true in Heq as (z & Hv & ->). cbn in Hv. subst v.
    by exists z.
  - intros (z & -> & Hin). exists (g, Some z). split; [done|].
    apply list_elem_of_filter. split; [|done].
    apply cut_eqb_true. by exists z.
Qed.

Lemma genes_in_cut_nan (oc : list (string * option Z)) : genes_in_cut oc None = [].
Proof.
  destruct (genes_in_cut oc None) as [|g l] eqn:Heq; [done|].
  assert (g ∈ genes_in_cut oc None) as Hg by (rewrite Heq; left).
  by apply genes_in_cut_spec in Hg as (z & ? & _).
Qed.

Lemma genes_in_cut_NoDup (oc : list (string * option Z)) c :
  NoDup (oc.*1) -> NoDup (genes_in_cut oc c).
Proof.
  intros Hnd. eapply sublist_NoDup; [exact Hnd|].
  unfold genes_in_cut. apply fmap_sublist, sublist_filter.
Qed.

(** Two bins share no gene when the pool names are distinct. *)
Lemma bins_disjoint (oc : list (string * option Z)) c z g :
  NoDup (oc.*1) -> c ≠ Some z ->
  g ∈ genes_in_cut oc c -> g ∉ genes_in_cut oc (Some z).
Proof.
  intros Hnd Hne Hc Hz.
  apply genes_in_cut_spec in Hc as (y & -> & Hy).
  apply genes_in_cut_spec in Hz as (z' & [= <-] & Hz).
  pose proof (fst_unique oc g _ _ Hnd Hy Hz). congruence.
Qed.

Lemma length_py_slice_to {A} (l : list A) n :
  0 <= n -> length (py_slice_to l n) = (Z.to_nat n `min` length l)%nat.
Proof. intros Hn. unfold py_slice_to. case_decide; [apply length_take|lia]. Qed.

Lemma py_slice_to_sublist {A} (l : list A) n : py_slice_to l n `sublist_of` l.
Proof. unfold py_slice_to. case_decide; apply sublist_take. Qed.

Lemma drawn_from_bin_subseteq oc cs c s g :
  g ∈ drawn_from_bin oc cs c s -> g ∈ genes_in_cut oc c.
Proof.
  unfold drawn_from_bin. intros Hg. apply py_slice_to_subseteq in Hg.
  by rewrite (shuffle_perm s (genes_in_cut oc c)) in Hg.
Qed.

Lemma drawn_from_bin_NoDup oc cs c s :
  NoDup (oc.*1) -> NoDup (drawn_from_bin oc cs c s).
Proof.
  intros Hnd. unfold drawn_from_bin.
  eapply sublist_NoDup; [|apply py_slice_to_sublist].
  rewrite (shuffle_perm s (genes_in_cut oc c)). by apply genes_in_cut_NoDup.
Qed.

(** What the slice of line 92 keeps: [ctrl_size] genes, or the whole bin
    when it is smaller. *)
Lemma length_drawn_from_bin oc cs c s :
  0 <= cs ->
  length (drawn_from_bin oc cs c s)
  = (Z.to_nat cs `min` length (genes_in_cut oc c))%nat.
Proof.
  intros Hcs. unfold drawn_from_bin. rewrite length_py_slice_to by done.
  by rewrite (Permutation_length (shuffle_perm s (genes_in_cut oc c))).
Qed.

Lemma sample_bins_step c cuts oc cs acc s :
  sample_bins (c :: cuts) oc cs acc s
  = sample_bins cuts oc cs (acc ∪ list_to_set (drawn_from_bin oc cs c s))
      (shuffle_state s (genes_in_cut oc c)).2.
Proof. done. Qed.

(** Iterations for other bins leave the genes sampled from bin [z] alone. *)
Lemma sample_bins_other cuts oc cs acc s z g :
  NoDup (oc.*1) -> Some z ∉ cuts ->
  g ∈ genes_in_cut oc (Some z) ->
  g ∈ (sample_bins cuts oc cs acc s).1 <-> g ∈ acc.
Proof.
  intros Hnd. revert acc s.
  induction cuts as [|c cuts IH]; intros acc s Hz Hg; [done|].
  rewrite sample_bins_step.
  apply not_elem_of_cons in Hz as [Hne Hz].
  rewrite (IH _ _ Hz Hg), elem_of_union, elem_of_list_to_set.
  split; [|by left]. intros [Hacc|Hd]; [done|].
  apply drawn_from_bin_subseteq in Hd.
  by destruct (bins_disjoint oc c z g Hnd ltac:(congruence) Hd).
Qed.

(** The genes of bin [z] among those sampled are the ones drawn in the one
    iteration for [z]. *)
Lemma sample_bins_size cuts oc cs acc s z :
  NoDup (oc.*1) -> NoDup (omap id cuts) -> Some z ∈ cuts -> 0 <= cs ->
  (forall g, g ∈ genes_in_cut oc (Some z) -> g ∉ acc) ->
  size ((sample_bins cuts oc cs acc s).1 ∩ list_to_set (genes_in_cut oc (Some z)))
  = (Z.to_nat cs `min` length (genes_in_cut oc (Some z)))%nat.
Proof.
  intros Hnd. revert acc s.
  induction cuts as [|c cuts IH]; intros acc s Hcuts Hz Hcs Hacc.
  { by apply elem_of_nil in Hz. }
  rewrite sample_bins_step.
  destruct (decide (c = Some z)) as [->|Hne].
  - cbn in Hcuts. apply NoDup_cons in Hcuts as [Hnotin _].
    assert (Some z ∉ cuts) as Hz'.
    { intros Hin. apply Hnotin, list_elem_of_omap. by exists (Some z). }
    rewrite <- (length_drawn_from_bin oc cs (Some z) s Hcs).
    rewrite <- (size_list_to_set (C := gset string) (drawn_from_bin oc cs (Some z) s))
      by (by apply drawn_from_bin_NoDup).
    f_equal. apply set_eq. intros g.
    rewrite elem_of_intersection, !elem_of_list_to_set. split.
    + intros [Hs Hg].
      apply (proj1 (sample_bins_other cuts oc cs _ _ z g Hnd Hz' Hg)) in Hs.
      apply elem_of_union in Hs as [Hs|Hs]; [by destruct (Hacc g Hg)|].
      by apply elem_of_list_to_set in Hs.
    + intros Hd. pose proof (drawn_from_bin_subseteq _ _ _ _ _ Hd) as Hg.
      split; [|done].
      apply (proj2 (sample_bins_other cuts oc cs _ _ z g Hnd Hz' Hg)).
      apply elem_of_union. right. by apply elem_of_list_to_set.
  - apply elem_of_cons in Hz as [Heq|Hz]; [congruence|].
    apply IH; [|done|done|].
    + destruct c as [y|]; cbn in Hcuts; [by apply NoDup_cons in Hcuts as [_ ?]|done].
    + intros g Hg. rewrite elem_of_union, elem_of_list_to_set.
      intros [Hin|Hd]; [by destruct (Hacc g Hg)|].
      apply drawn_from_bin_subseteq in Hd.
      by destruct (bins_disjoint oc c z g Hnd Hne Hd).
Qed.

Lemma omap_id_Some (l : list Z) : omap id (Some <$> l) = l.
Proof. induction l as [|x l IH]; [done|]. cbn. by rewrite IH. Qed.

Lemma omap_id_nans (l : list (option Z)) : omap id (filter (fun c => c = None) l) = [].
Proof.
  induction l as [|[x|] l IH]; [done| |].
  - by rewrite filter_cons_False.
  - by rewrite filter_cons_True.
Qed.

Lemma np_unique_NoDup (l : list (option Z)) : NoDup (omap id (np_unique l)).
Proof.
  unfold np_unique. rewrite omap_app, omap_id_Some, omap_id_nans, app_nil_r.
  rewrite merge_sort_Permutation. apply NoDup_remove_dups.
Qed.

Lemma np_unique_elem (l : list (option Z)) z : Some z ∈ l -> Some z ∈ np_unique l.
Proof.
  intros Hz. unfold np_unique. apply elem_of_app. left.
  apply list_elem_of_fmap_2. rewrite merge_sort_Permutation.
  apply elem_of_remove_dups, list_elem_of_omap. by exists (Some z).
Qed.

Lemma series_loc_elem (oc : list (string * option Z)) keys picked g v :
  series_loc oc keys = Ok picked -> g ∈ keys -> (g, v) ∈ oc -> v ∈ picked.
Proof.
  intros Hloc Hg Hv. unfold series_loc in Hloc.
  destruct keys as [|k keys]; [by apply elem_of_nil in Hg|].
  case_decide; [done|].
  apply (f_equal (fun r => match r with Ok x => x | Raise _ => [] end)) in Hloc.
  cbv beta iota in Hloc. rewrite <- Hloc.
  apply list_elem_of_bind. exists g. split; [|done].
  assert ((g, v) ∈ filter (fun p : string * option Z => p.1 = g) oc) as Hin
    by (by apply list_elem_of_filter).
  destruct (filter _ oc) as [|p hits]; [by apply elem_of_nil in Hin|].
  by apply (list_elem_of_fmap_2 snd) in Hin.
Qed.

(** C8: in a successful run with [ctrl_size >= 0], for every bin that holds
    a gene of the filtered [gene_list], the slice taken from the shuffled
    bin has [min(ctrl_size, bin population)] genes; and these are exactly
    the genes of that bin among those sampled (before the target genes are
    removed), so that, the pool names being distinct, their number is
    [min(ctrl_size, bin population)] -- the whole bin when it is smaller. *)
Theorem bin_draw_size adata gl cs gp nb name rs (copy : bool) (w : world) r lc w' :
  score_genes_run adata gl cs gp nb name rs copy w = (Ok (r, lc), w') ->
  0 <= cs ->
  forall g z,
    g ∈ l_gene_set lc -> (g, Some z) ∈ l_obs_cut lc ->
    let bin := genes_in_cut (l_obs_cut lc) (Some z) in
    (forall s, Z.of_nat (length (drawn_from_bin (l_obs_cut lc) cs (Some z) s))
               = Z.min cs (Z.of_nat (length bin))) /\
    (NoDup ((l_obs_cut lc).*1) ->
     Z.of_nat (size (l_sampled lc ∩ list_to_set bin))
     = Z.min cs (Z.of_nat (length bin))).
Proof.
  intros Hrun Hcs g z Hg Hz. cbn zeta.
  apply score_genes_run_inv in Hrun as (ad & w1 & Had & Hbody & _ & _).
  apply score_genes_body_inv in Hbody
    as (ad' & pool_X & n & picked & tX & cX & _ & _ & _ & _ & Hpk & _ & _ & -> & _).
  cbn [l_gene_set l_obs_cut l_sampled] in *.
  split.
  - intros s. rewrite length_drawn_from_bin by done. lia.
  - intros Hnd. rewrite sample_bins_size; [lia|done|apply np_unique_NoDup| |done|].
    + apply np_unique_elem.
      eapply series_loc_elem; [exact Hpk| |exact Hz]. by apply elem_of_elements.
    + intros g' _. apply not_elem_of_empty.
Qed.

End BinDraw.

Lemma bin_draw_size_witness :
  exists r lc w',
    score_genes_run 0%nat ["C"]%string 2 None 3 "score" 0 false ex_world
    = (Ok (r, lc), w') /\
    genes_in_cut (l_obs_cut lc) (Some 1) = ["C"; "D"; "E"]%string /\
    Z.of_nat (size (l_sampled lc ∩ list_to_set (genes_in_cut (l_obs_cut lc) (Some 1))))
    = Z.min 2 (Z.of_nat (length (genes_in_cut (l_obs_cut lc) (Some 1)))).
Proof.
  eassert (score_genes_run 0%nat ["C"]%string 2 None 3 "score" 0 false ex_world
           = (Ok (_, _), _)) as Hrun by (vm_compute; reflexivity).
  eexists _, _, _. split; [exact Hrun|]. split; [by vm_compute|].
  apply (bin_draw_size _ _ _ _ _ _ _ _ _ _ _ _ Hrun ltac:(lia) "C"%string 1).
  - apply (bool_decide_unpack _). by vm_compute.
  - apply (bool_decide_unpack _). by vm_compute.
  - apply (bool_decide_unpack _). by vm_compute.
Defined.

(** * Further properties of [score_genes] *)

(** ** Degenerate inputs: no target gene, no control gene *)

Section Degenerate.
Context `{NumpyRandom}.

Lemma subset_X_rows (ad : AnnData) names m :
  subset_X ad names = Ok m -> length m = length (X ad).
Proof.
  unfold subset_X. destruct (mapM (var_index ad) names); [|done].
  intros [= <-]. by rewrite length_map.
Qed.

Lemma subset_X_nil (ad : AnnData) : subset_X ad [] = Ok (map (fun _ => []) (X ad)).
Proof. done. Qed.

Lemma num_sub_nan_r a : num_sub a NaN = NaN.
Proof. by destruct a. Qed.

Lemma scores_without_controls (tX rows : list (list num)) :
  length tX = length rows ->
  zip_with num_sub (mean_axis1 tX) (mean_axis1 (map (fun _ => []) rows))
  = replicate (length rows) NaN.
Proof.
  revert tX. induction rows as [|row rows IH]; intros [|t tX] Hlen; try done.
  injection Hlen as Hlen. unfold mean_axis1 in *. cbn.
  by rewrite num_sub_nan_r, IH.
Qed.

Lemma length_scores (tX cX : list (list num)) n :
  length tX = n -> length cX = n ->
  length (zip_with num_sub (mean_axis1 tX) (mean_axis1 cX)) = n.
Proof.
  intros Ht Hc. unfold mean_axis1. rewrite length_zip_with, !length_map. lia.
Qed.

Lemma sample_bins_zero cuts oc acc s : (sample_bins cuts oc 0 acc s).1 = acc.
Proof.
  revert acc s. induction cuts as [|c cuts IH]; intros acc s; [done|].
  cbn [sample_bins]. rewrite IH. unfold py_slice_to.
  rewrite decide_True by done. change (Z.to_nat 0) with 0%nat.
  rewrite take_0. change (list_to_set []) with (∅ : gset string).
  apply union_empty_r_L.
Qed.

Lemma rng_calls_after_seed rs (w : world) :
  rng_calls (after_seed rs w)
  = (if decide (rs = 0) then [] else [CallSeed rs]) ++ rng_calls w.
Proof. unfold after_seed. destruct (decide (rs ≠ 0)), (decide (rs = 0)); done. Qed.


(** The column written by a successful run holds one score per cell, and the
    run changes nothing else of the container it works on. *)
Theorem score_column_one_per_cell adata gl cs gp nb name rs (copy : bool) (w : world) r lc w' :
  score_genes_run adata gl cs gp nb name rs copy w = (Ok (r, lc), w') ->
  exists ad ad',
    heap w !! adata = Some ad /\
    heap w' !! body_adata copy adata w = Some ad' /\
    obs ad' = <[name := NumCol (l_score lc)]> (obs ad) /\
    length (l_score lc) = length (X ad) /\
    X ad' = X ad /\ var_names ad' = var_names ad /\ issparse ad' = issparse ad.
Proof.
  intros Hrun.
  apply score_genes_run_inv in Hrun as (ad & w1 & Had & Hbody & _ & ->).
  apply score_genes_body_inv in Hbody
    as (ad' & pool_X & n & picked & tX & cX & Had' & _ & _ & _ & _ & HtX & HcX & -> & _).
  rewrite (body_world_lookup adata copy w ad Had) in Had'. injection Had' as <-.
  exists ad, (set_obs_column ad name
                (NumCol (zip_with num_sub (mean_axis1 tX) (mean_axis1 cX)))).
  split; [done|]. split; [apply lookup_insert_eq|]. split; [done|].
  split; [|done].
  cbn [l_score]. apply length_scores; by eapply subset_X_rows.
Qed.




End Degenerate.

(** ** Failures and the copy flag *)

Section Failures.
Context `{NumpyRandom}.

Lemma series_loc_miss (s : list (string * option Z)) (keys : list string) :
  keys ≠ [] -> Forall (fun k => k ∉ s.*1) keys -> series_loc s keys = Raise KeyError.
Proof.
  intros Hne Hall. unfold series_loc. destruct keys as [|k keys]; [done|].
  by rewrite decide_True.
Qed.

Lemma score_genes_body_key_error a gl cs gp nb rs (w : world) ad :
  heap w !! a = Some ad ->
  (rs = 0 \/ 0 <= rs < 2 ^ 32) ->
  nb ≠ 1 ->
  known_genes ad gl ≠ ∅ ->
  Forall (fun g => g ∉ resolve_gene_pool ad gp) (elements (known_genes ad gl)) ->
  score_genes_body a gl cs gp nb rs w = (Raise KeyError, after_seed rs w).
Proof.
  intros Ha Hrs Hnb Hne Hmiss. unfold score_genes_body.
  rewrite bind_run, seed_step_run, decide_True by done.
  rewrite bind_run. unfold get_adata. rewrite heap_after_seed, Ha.
  rewrite bind_run. unfold lift at 1.
  destruct (subset_X_ok ad _ (resolve_gene_pool_known ad gp)) as [pool_X ->].
  rewrite bind_run. unfold lift at 1. rewrite n_items_of_ok by done.
  rewrite bind_run. unfold lift at 1.
  rewrite series_loc_miss; [done| |].
  - intros Hnil. apply Hne, leibniz_equiv. by apply elements_empty_inv.
  - by rewrite obs_cut_of_index, obs_avg_of_index.
Qed.

(** The copy of line 59 is allocated at a new location: what was in the
    store stays. *)
Lemma body_world_frame (copy : bool) (w : world) ad l ad0 :
  heap w !! l = Some ad0 -> heap (body_world copy ad w) !! l = Some ad0.
Proof.
  intros Hl. unfold body_world. destruct copy; [|done]. cbn [heap].
  rewrite lookup_insert_ne; [done|].
  intros <-. by rewrite fresh_not_allocated in Hl.
Qed.

(** When [gene_list] has known genes but none of them is in the pool of the
    caller, the lookup of line 89 raises [KeyError]: nothing has been
    shuffled or written, but a non-zero [random_state] has already re-seeded
    the generator. *)
Theorem pool_miss_raises_key_error adata gl cs gp nb name rs (copy : bool) (w : world) ad :
  heap w !! adata = Some ad ->
  (rs = 0 \/ 0 <= rs < 2 ^ 32) ->
  nb ≠ 1 ->
  known_genes ad gl ≠ ∅ ->
  Forall (fun g => g ∉ resolve_gene_pool ad gp) (elements (known_genes ad gl)) ->
  exists w',
    score_genes adata gl cs gp nb name rs copy w = (Raise KeyError, w') /\
    heap w' !! adata = Some ad /\
    rng w' = (if decide (rs = 0) then rng w else seed_state rs) /\
    rng_calls w' = (if decide (rs = 0) then [] else [CallSeed rs]) ++ rng_calls w.
Proof.
  intros Had Hrs Hnb Hne Hmiss.
  pose proof (score_genes_body_key_error (body_adata copy adata w) gl cs gp nb rs
                (body_world copy ad w) ad (body_world_lookup adata copy w ad Had)
                Hrs Hnb Hne Hmiss) as Hbody.
  exists (after_seed rs (body_world copy ad w)).
  rewrite score_genes_of_run,
    (score_genes_run_raise adata gl cs gp nb name rs copy w ad _ _ Had Hbody).
  split; [done|].
  rewrite heap_after_seed, rng_after_seed, rng_body_world, rng_calls_after_seed,
    rng_calls_body_world.
  split; [by apply body_world_keeps|done].
Qed.

(** A run of [score_genes] that raises has changed no container that existed
    before the call: the score column is written last, after every step
    that can fail. *)
Theorem failed_run_keeps_containers adata gl cs gp nb name rs (copy : bool) (w : world) e w' :
  score_genes adata gl cs gp nb name rs copy w = (Raise e, w') ->
  forall l ad0, heap w !! l = Some ad0 -> heap w' !! l = Some ad0.
Proof.
  rewrite score_genes_of_run.
  destruct (score_genes_run adata gl cs gp nb name rs copy w) as [[p|e0] w0] eqn:Hrun;
    [done|].
  intros [= <- <-] l ad0 Hl.
  destruct (heap w !! adata) as [ad|] eqn:Had.
  - destruct (score_genes_body (body_adata copy adata w) gl cs gp nb rs
                (body_world copy ad w)) as [[lc|e1] w1] eqn:Hbody.
    + by rewrite (score_genes_run_intro adata gl cs gp nb name rs copy w ad _ _ Had Hbody)
        in Hrun.
    + rewrite (score_genes_run_raise adata gl cs gp nb name rs copy w ad _ _ Had Hbody)
        in Hrun.
      injection Hrun as <- <-.
      pose proof (score_genes_body_heap (body_adata copy adata w) gl cs gp nb rs
                    (body_world copy ad w)) as Hheap.
      rewrite Hbody in Hheap. cbn [snd] in Hheap. rewrite Hheap.
      by apply body_world_frame.
  - unfold score_genes_run in Hrun. rewrite bind_run in Hrun. destruct copy.
    + unfold adata_copy in Hrun. rewrite Had in Hrun. by injection Hrun as <- <-.
    + unfold mret at 1, M_ret in Hrun. rewrite bind_run in Hrun.
      pose proof (score_genes_body_heap adata gl cs gp nb rs w) as Hheap.
      destruct (score_genes_body adata gl cs gp nb rs w) as [[lc|e1] w1] eqn:Hbody.
      * apply score_genes_body_inv in Hbody as (? & ? & ? & ? & ? & ? & Hx & _).
        congruence.
      * injection Hrun as <- <-. cbn [snd] in Hheap. by rewrite Hheap.
Qed.

(** The copy flag decides where the column goes, not what is computed: from
    the same world, [copy = True] and [copy = False] end the same way, with
    the same control genes and the same scores. *)
Theorem copy_flag_keeps_scores adata gl cs gp nb name rs (w : world) ad :
  heap w !! adata = Some ad ->
  locals_of_run (score_genes_run adata gl cs gp nb name rs true w)
  = locals_of_run (score_genes_run adata gl cs gp nb name rs false w).
Proof.
  intros Had.
  pose proof (score_genes_body_congr
    (body_adata true adata w) (body_adata false adata w) gl cs gp nb rs
    (body_world true ad w) (body_world false ad w)) as Hcongr.
  rewrite !body_world_lookup, !rng_after_seed, !rng_body_world in Hcongr by done.
  specialize (Hcongr eq_refl eq_refl).
  destruct (score_genes_body (body_adata true adata w) gl cs gp nb rs _)
    as [[lc1|e1] w1] eqn:Hb1;
  destruct (score_genes_body (body_adata false adata w) gl cs gp nb rs _)
    as [[lc2|e2] w2] eqn:Hb2.
  all: cbn [fst] in Hcongr.
  all: try (rewrite (score_genes_run_intro adata gl cs gp nb name rs true w ad _ _ Had Hb1)).
  all: try (rewrite (score_genes_run_intro adata gl cs gp nb name rs false w ad _ _ Had Hb2)).
  all: try (rewrite (score_genes_run_raise adata gl cs gp nb name rs true w ad _ _ Had Hb1)).
  all: try (rewrite (score_genes_run_raise adata gl cs gp nb name rs false w ad _ _ Had Hb2)).
  all: unfold locals_of_run; cbn [fst snd]; exact Hcongr.
Qed.

End Failures.

(** ** Which genes become control genes *)

Section Matching.
Context `{NumpyRandom}.

Lemma sample_bins_elem cuts oc cs acc s g :
  g ∈ (sample_bins cuts oc cs acc s).1 ->
  g ∈ acc \/ exists c, c ∈ cuts /\ g ∈ genes_in_cut oc c.
Proof.
  revert acc s. induction cuts as [|c cuts IH]; intros acc s; [by left|].
  rewrite sample_bins_step. intros Hg.
  apply IH in Hg as [Hg|(c' & Hc' & Hg)].
  - apply elem_of_union in Hg as [Hg|Hg]; [by left|right].
    apply elem_of_list_to_set, drawn_from_bin_subseteq in Hg.
    exists c. split; [left|done].
  - right. exists c'. split; [by right|done].
Qed.

Lemma np_unique_elem_inv (l : list (option Z)) c : c ∈ np_unique l -> c ∈ l.
Proof.
  unfold np_unique. intros Hc. apply elem_of_app in Hc as [Hc|Hc].
  - apply list_elem_of_fmap in Hc as (z & -> & Hz).
    rewrite merge_sort_Permutation in Hz.
    apply elem_of_remove_dups, list_elem_of_omap in Hz as (x & Hx & Hid).
    cbn in Hid. by subst x.
  - by apply list_elem_of_filter in Hc as [_ Hc].
Qed.

Lemma series_loc_inv (oc : list (string * option Z)) keys picked z :
  series_loc oc keys = Ok picked -> Some z ∈ picked ->
  exists k, k ∈ keys /\ (k, Some z) ∈ oc.
Proof.
  intros Hloc Hz. unfold series_loc in Hloc.
  destruct keys as [|k0 keys]; [injection Hloc as <-; by apply elem_of_nil in Hz|].
  case_decide; [done|].
  apply (f_equal (fun r => match r with Ok x => x | Raise _ => [] end)) in Hloc.
  cbv beta iota in Hloc. rewrite <- Hloc in Hz.
  apply list_elem_of_bind in Hz as (k & Hz & Hk).
  exists k. split; [done|].
  destruct (filter (fun p : string * option Z => p.1 = k) oc) as [|p hits] eqn:Hf.
  - apply list_elem_of_singleton in Hz. done.
  - apply list_elem_of_fmap in Hz as ([k' v] & Hv & Hin). cbn in Hv. subst v.
    rewrite <- Hf in Hin. apply list_elem_of_filter in Hin as [Hk' Hin].
    cbn in Hk'. by subst k'.
Qed.

(** Every control gene is matched by expression: it is a gene of the pool,
    not a target gene, and it lies in a bin that holds a target gene. *)
Theorem control_genes_are_matched adata gl cs gp nb name rs (copy : bool) (w : world) r lc w' ad :
  score_genes_run adata gl cs gp nb name rs copy w = (Ok (r, lc), w') ->
  heap w !! adata = Some ad ->
  forall g, g ∈ l_control_genes lc ->
    (g ∉ l_gene_set lc) /\
    g ∈ resolve_gene_pool ad gp /\
    g ∈ var_names ad /\
    exists t z,
      t ∈ l_gene_set lc /\
      (t, Some z) ∈ l_obs_cut lc /\ (g, Some z) ∈ l_obs_cut lc.
Proof.
  intros Hrun Had g Hg.
  apply score_genes_run_inv in Hrun as (ad0 & w1 & Had0 & Hbody & _ & _).
  assert (ad0 = ad) as -> by congruence.
  apply score_genes_body_inv in Hbody
    as (ad' & pool_X & n & picked & tX & cX & Had' & _ & _ & _ & Hpk & _ & _ & -> & _).
  rewrite (body_world_lookup adata copy w ad Had) in Had'. injection Had' as <-.
  cbn [l_control_genes l_gene_set l_obs_cut] in *.
  apply elem_of_elements, elem_of_difference in Hg as [Hg Hnot].
  split; [done|].
  apply sample_bins_elem in Hg as [Hg|(c & Hc & Hg)];
    [by apply not_elem_of_empty in Hg|].
  assert (g ∈ resolve_gene_pool ad gp) as Hpool.
  { apply genes_in_cut_index in Hg.
    by rewrite obs_cut_of_index, obs_avg_of_index in Hg. }
  split; [done|]. split.
  { pose proof (resolve_gene_pool_known ad gp) as Hall.
    rewrite Forall_forall in Hall. by apply Hall. }
  apply genes_in_cut_spec in Hg as (z & -> & Hgz).
  apply np_unique_elem_inv in Hc.
  destruct (series_loc_inv _ _ _ _ Hpk Hc) as (t & Ht & Htz).
  exists t, z. split; [by apply elem_of_elements|done].
Qed.


End Matching.

(** ** Bins and expression *)

Section BinOrder.
Context `{NumpyRandom}.

Lemma rank_of_le (vals : list num) x y rx ry :
  Fin x ∈ vals -> (x <= y)%Q ->
  rank_of vals (Fin x) = Some rx -> rank_of vals (Fin y) = Some ry ->
  rx <= ry.
Proof.
  intros Hin Hxy Hrx Hry. apply Qle_lteq in Hxy as [Hlt|Heq].
  - pose proof (rank_of_lt vals x y rx ry Hin Hlt Hrx Hry). lia.
  - rewrite (rank_of_ties vals x y Heq) in Hrx.
    assert (rx = ry) by congruence. lia.
Qed.

(** For a positive bin width, the bins follow the average expression: a gene
    with a higher average is never in a lower bin, and genes with the same
    average share their bin. *)
Theorem bins_follow_expression (obs_avg : list (string * num)) n i j g1 g2 x y :
  0 < n ->
  obs_avg !! i = Some (g1, Fin x) ->
  obs_avg !! j = Some (g2, Fin y) ->
  (x <= y)%Q ->
  exists z1 z2,
    obs_cut_of obs_avg n !! i = Some (g1, Some z1) /\
    obs_cut_of obs_avg n !! j = Some (g2, Some z2) /\
    z1 <= z2 /\
    (Qeq x y -> z1 = z2).
Proof.
  intros Hn Hi Hj Hxy.
  rewrite (obs_cut_of_lookup _ n _ _ _ Hi), (obs_cut_of_lookup _ n _ _ _ Hj).
  destruct (rank_of (obs_avg.*2) (Fin x)) as [rx|] eqn:Hrx; [|done].
  destruct (rank_of (obs_avg.*2) (Fin y)) as [ry|] eqn:Hry; [|done].
  unfold floordiv. rewrite !decide_False by lia.
  exists (rx / n), (ry / n). split; [done|]. split; [done|].
  assert (Fin x ∈ obs_avg.*2) as Hin.
  { apply list_elem_of_lookup. exists i. by rewrite list_lookup_fmap, Hi. }
  split.
  - apply Z.div_le_mono; [done|]. by apply (rank_of_le (obs_avg.*2) x y).
  - intros Heq. rewrite (rank_of_ties _ x y Heq) in Hrx. congruence.
Qed.

Lemma round_half_even_nonneg (a b : Z) :
  0 <= a -> 0 < b -> 0 <= round_half_even a b.
Proof.
  intros Ha Hb. unfold round_half_even.
  pose proof (Z.div_pos a b Ha Hb).
  destruct (2 * Z.abs (a mod b) ?= Z.abs b); [destruct (Z.even (a / b))| |]; lia.
Qed.

Lemma obs_cut_of_elem (oa : list (string * num)) n g z :
  (g, Some z) ∈ obs_cut_of oa n ->
  n ≠ 0 /\ exists q r,
    Fin q ∈ oa.*2 /\ rank_of (oa.*2) (Fin q) = Some r /\ z = r / n.
Proof.
  intros Hin. apply list_elem_of_lookup in Hin as [i Hi].
  unfold obs_cut_of in Hi.
  apply lookup_zip_with_Some in Hi as (g' & c & [= <- <-] & Hg & Hc).
  change (map ?f ?l) with (f <$> l) in Hc. unfold rank_min in Hc.
  change (map ?f ?l) with (f <$> l) in Hc.
  rewrite !list_lookup_fmap in Hc.
  destruct (oa !! i) as [[g0 v]|] eqn:Hv; [|done]. cbn in Hc.
  destruct v as [|q]; [done|].
  unfold floordiv in Hc. cbn [rank_of] in Hc.
  destruct (decide (n = 0)); [done|]. injection Hc as <-.
  split; [done|]. eexists q, _. split; [|done].
  apply list_elem_of_lookup. exists i. by rewrite list_lookup_fmap, Hv.
Qed.

(** For [n_bins > 1] a bin index never is negative and never exceeds
    [3 (n_bins - 1) / 2]: rounding the width down can give more than [n_bins]
    bins, but not more than half as many again. *)
Theorem bin_index_bound adata gl cs gp nb name rs (copy : bool) (w : world) r lc w' :
  score_genes_run adata gl cs gp nb name rs copy w = (Ok (r, lc), w') ->
  1 < nb ->
  forall g z, (g, Some z) ∈ l_obs_cut lc -> 0 <= z /\ 2 * z <= 3 * (nb - 1).
Proof.
  intros Hrun Hnb g z Hin.
  apply score_genes_run_inv in Hrun as (ad & w1 & Had & Hbody & _ & _).
  apply score_genes_body_inv in Hbody
    as (ad' & pool_X & n & picked & tX & cX & _ & _ & _ & Hn & _ & _ & _ & -> & _).
  cbn [l_obs_cut] in Hin.
  rewrite n_items_of_ok in Hn by lia. injection Hn as Hn.
  apply obs_cut_of_elem in Hin as (Hn0 & q & rk & Hq & Hrk & ->).
  pose proof (rank_of_bounds _ _ _ Hq Hrk) as Hbound.
  rewrite length_fmap in Hbound.
  set (size := Z.of_nat (length (obs_avg_of ad' (resolve_gene_pool ad' gp) pool_X))) in *.
  pose proof (round_half_even_nonneg size (nb - 1) ltac:(lia) ltac:(lia)) as Hpos.
  pose proof (round_half_even_nearest size (nb - 1) ltac:(lia)) as Hnear.
  rewrite Hn in Hpos, Hnear.
  assert (0 < n) as Hn1 by lia.
  pose proof (Z.mul_div_le rk n Hn1) as Hmul.
  split; [apply Z.div_pos; lia|].
  nia.
Qed.

End BinOrder.

(** ** A negative [ctrl_size] *)

Section NegativeSlice.
Context `{NumpyRandom}.

Lemma length_py_slice_to_len {A} (l k : list A) n :
  length l = length k -> length (py_slice_to l n) = length (py_slice_to k n).
Proof.
  intros Hlen. unfold py_slice_to. case_decide; rewrite !length_take; lia.
Qed.

Lemma length_drawn_any oc cs c s :
  length (drawn_from_bin oc cs c s) = length (py_slice_to (genes_in_cut oc c) cs).
Proof.
  unfold drawn_from_bin. apply length_py_slice_to_len.
  by rewrite (Permutation_length (shuffle_perm s (genes_in_cut oc c))).
Qed.

(** The genes of bin [z] among those sampled are as many as the slice of
    line 92 keeps, whatever the sign of [ctrl_size]. *)
Lemma sample_bins_bin_size cuts oc cs acc s z :
  NoDup (oc.*1) -> NoDup (omap id cuts) -> Some z ∈ cuts ->
  (forall g, g ∈ genes_in_cut oc (Some z) -> g ∉ acc) ->
  size ((sample_bins cuts oc cs acc s).1 ∩ list_to_set (genes_in_cut oc (Some z)))
  = length (py_slice_to (genes_in_cut oc (Some z)) cs).
Proof.
  intros Hnd. revert acc s.
  induction cuts as [|c cuts IH]; intros acc s Hcuts Hz Hacc.
  { by apply elem_of_nil in Hz. }
  rewrite sample_bins_step.
  destruct (decide (c = Some z)) as [->|Hne].
  - cbn in Hcuts. apply NoDup_cons in Hcuts as [Hnotin _].
    assert (Some z ∉ cuts) as Hz'.
    { intros Hin. apply Hnotin, list_elem_of_omap. by exists (Some z). }
    rewrite <- (length_drawn_any oc cs (Some z) s).
    rewrite <- (size_list_to_set (C := gset string) (drawn_from_bin oc cs (Some z) s))
      by (by apply drawn_from_bin_NoDup).
    f_equal. apply set_eq. intros g.
    rewrite elem_of_intersection, !elem_of_list_to_set. split.
    + intros [Hs Hg].
      apply (proj1 (sample_bins_other cuts oc cs _ _ z g Hnd Hz' Hg)) in Hs.
      apply elem_of_union in Hs as [Hs|Hs]; [by destruct (Hacc g Hg)|].
      by apply elem_of_list_to_set in Hs.
    + intros Hd. pose proof (drawn_from_bin_subseteq _ _ _ _ _ Hd) as Hg.
      split; [|done].
      apply (proj2 (sample_bins_other cuts oc cs _ _ z g Hnd Hz' Hg)).
      apply elem_of_union. right. by apply elem_of_list_to_set.
  - apply elem_of_cons in Hz as [Heq|Hz]; [congruence|].
    apply IH; [|done|].
    + destruct c as [y|]; cbn in Hcuts; [by apply NoDup_cons in Hcuts as [_ ?]|done].
    + intros g Hg. rewrite elem_of_union, elem_of_list_to_set.
      intros [Hin|Hd]; [by destruct (Hacc g Hg)|].
      apply drawn_from_bin_subseteq in Hd.
      by destruct (bins_disjoint oc c z g Hnd Hne Hd).
Qed.

(** A negative [ctrl_size] is no error: the slice [r_genes[:ctrl_size]]
    then drops the last [-ctrl_size] genes of the shuffled bin, so a bin that
    holds a target gene contributes its population minus [-ctrl_size] genes,
    and nothing when it is not larger than that. *)
Theorem negative_ctrl_size_drops_from_end adata gl cs gp nb name rs (copy : bool) (w : world) r lc w' :
  score_genes_run adata gl cs gp nb name rs copy w = (Ok (r, lc), w') ->
  cs < 0 ->
  NoDup ((l_obs_cut lc).*1) ->
  forall g z,
    g ∈ l_gene_set lc -> (g, Some z) ∈ l_obs_cut lc ->
    Z.of_nat (size (l_sampled lc
                    ∩ list_to_set (genes_in_cut (l_obs_cut lc) (Some z))))
    = Z.max 0 (Z.of_nat (length (genes_in_cut (l_obs_cut lc) (Some z))) + cs).
Proof.
  intros Hrun Hcs Hnd g z Hg Hz.
  apply score_genes_run_inv in Hrun as (ad & w1 & Had & Hbody & _ & _).
  apply score_genes_body_inv in Hbody
    as (ad' & pool_X & n & picked & tX & cX & _ & _ & _ & _ & Hpk & _ & _ & -> & _).
  cbn [l_gene_set l_obs_cut l_sampled] in *.
  rewrite sample_bins_bin_size; [|done|apply np_unique_NoDup| |].
  - unfold py_slice_to. rewrite decide_False by lia. rewrite length_take. lia.
  - apply np_unique_elem.
    eapply series_loc_elem; [exact Hpk| |exact Hz]. by apply elem_of_elements.
  - intros g' _. apply not_elem_of_empty.
Qed.

End NegativeSlice.

(** * Further properties of [score_genes_cell_cycle] *)

Section CellCycleEdges.
Context `{NumpyRandom}.

Lemma score_genes_body_length a gl cs gp nb rs (w : world) lc w1 ad :
  score_genes_body a gl cs gp nb rs w = (Ok lc, w1) ->
  heap w !! a = Some ad ->
  length (l_score lc) = length (X ad).
Proof.
  intros Hbody Ha.
  apply score_genes_body_inv in Hbody
    as (ad' & pool_X & n & picked & tX & cX & Had' & _ & _ & _ & _ & HtX & HcX & -> & _).
  assert (ad' = ad) as -> by congruence.
  cbn [l_score]. apply length_scores; by eapply subset_X_rows.
Qed.

Lemma score_genes_body_zero_ctrl a gl gp nb rs (w : world) lc w1 ad :
  score_genes_body a gl 0 gp nb rs w = (Ok lc, w1) ->
  heap w !! a = Some ad ->
  l_score lc = replicate (length (X ad)) NaN.
Proof.
  intros Hbody Ha.
  apply score_genes_body_inv in Hbody
    as (ad' & pool_X & n & picked & tX & cX & Had' & _ & _ & _ & _ & HtX & HcX & -> & _).
  assert (ad' = ad) as -> by congruence.
  rewrite sample_bins_zero, empty_difference_L, elements_empty, subset_X_nil in HcX.
  injection HcX as <-. cbn [l_score].
  apply scores_without_controls. by eapply subset_X_rows.
Qed.


Lemma assign_phase_nan n :
  assign_phase (replicate n NaN) (replicate n NaN) = replicate n "S"%string.
Proof.
  induction n as [|n IH]; [done|].
  unfold assign_phase, mask_assign in *. cbn. by rewrite IH.
Qed.

Lemma phase_of_label s g : phase_of s g ∈ ["S"; "G2M"; "G1"]%string.
Proof.
  unfold phase_of.
  destruct (num_ltb s (Fin 0) && num_ltb g (Fin 0)), (num_ltb s g);
    repeat first [by left | right].
Qed.

Lemma phase_of_nan s g : s = NaN \/ g = NaN -> phase_of s g = "S"%string.
Proof.
  unfold phase_of. intros [-> | ->]; [done|].
  destruct s as [|q]; [done|]. cbn. by rewrite andb_false_r.
Qed.

Lemma assign_phase_lookup_inv (S_score G2M_score : list num) i p :
  assign_phase S_score G2M_score !! i = Some p ->
  exists s g, S_score !! i = Some s /\ G2M_score !! i = Some g /\ p = phase_of s g.
Proof.
  intros Hp.
  destruct (S_score !! i) as [s|] eqn:Hs; cycle 1.
  { apply lookup_ge_None in Hs.
    assert (length (assign_phase S_score G2M_score) <= i)%nat as Hlen.
    { unfold assign_phase, mask_assign.
      rewrite !length_zip_with, length_map, length_zip_with. lia. }
    apply lookup_ge_None in Hlen. congruence. }
  destruct (G2M_score !! i) as [g|] eqn:Hg; cycle 1.
  { apply lookup_ge_None in Hg.
    assert (length (assign_phase S_score G2M_score) <= i)%nat as Hlen.
    { unfold assign_phase, mask_assign.
      rewrite !length_zip_with, length_map, length_zip_with. lia. }
    apply lookup_ge_None in Hlen. congruence. }
  exists s, g. rewrite (assign_phase_lookup _ _ _ _ _ Hs Hg) in Hp. by injection Hp as <-.
Qed.

(** After a successful run the three columns hold one value per cell; every
    phase is one of ["S"], ["G2M"], ["G1"]; and a cell one of whose scores is
    NaN is labelled ["S"]. *)
Theorem phase_column_invariant adata s_genes g2m_genes (copy : bool) kw (w : world) r w' :
  score_genes_cell_cycle adata s_genes g2m_genes copy kw w = (Ok r, w') ->
  exists ad ad' S_score G2M_score phase,
    heap w !! adata = Some ad /\
    heap w' !! body_adata copy adata w = Some ad' /\
    obs ad' !! "S_score"%string = Some (NumCol S_score) /\
    obs ad' !! "G2M_score"%string = Some (NumCol G2M_score) /\
    obs ad' !! "phase"%string = Some (StrCol phase) /\
    length S_score = length (X ad) /\
    length G2M_score = length (X ad) /\
    length phase = length (X ad) /\
    Forall (fun p => p ∈ ["S"; "G2M"; "G1"]%string) phase /\
    forall i, S_score !! i = Some NaN \/ G2M_score !! i = Some NaN ->
              phase !! i = Some "S"%string.
Proof.
  intros Hrun.
  apply cell_cycle_inv in Hrun
    as (ad & lc1 & w1 & lc2 & w2 & _ & Had & Hb1 & Hb2 & _ & ->).
  pose proof (score_genes_body_length _ _ _ _ _ _ _ _ _ ad Hb1
                (body_world_lookup adata copy w ad Had)) as Hl1.
  pose proof (score_genes_body_length _ _ _ _ _ _ _ _ _ _ Hb2
                ltac:(apply lookup_insert_eq)) as Hl2.
  cbn [X set_obs_column] in Hl2.
  exists ad, (with_cell_cycle ad (l_score lc1) (l_score lc2)),
    (l_score lc1), (l_score lc2), (assign_phase (l_score lc1) (l_score lc2)).
  split; [done|]. split; [apply lookup_insert_eq|].
  split; [cbn; by rewrite !lookup_insert_ne, lookup_insert_eq by done|].
  split; [cbn; by rewrite lookup_insert_ne, lookup_insert_eq by done|].
  split; [cbn; apply lookup_insert_eq|].
  split; [done|]. split; [done|].
  split; [rewrite length_assign_phase; congruence|].
  split.
  - apply Forall_lookup. intros i p Hp.
    apply assign_phase_lookup_inv in Hp as (s & g & _ & _ & ->).
    apply phase_of_label.
  - intros i Hnan.
    assert (i < length (X ad))%nat as Hi.
    { destruct Hnan as [Hn|Hn]; apply lookup_lt_Some in Hn; lia. }
    destruct (lookup_lt_is_Some_2 (l_score lc1) i ltac:(lia)) as [s Hs].
    destruct (lookup_lt_is_Some_2 (l_score lc2) i ltac:(lia)) as [g Hg].
    rewrite (assign_phase_lookup _ _ _ _ _ Hs Hg). f_equal.
    apply phase_of_nan. destruct Hnan as [Hn|Hn]; [left|right]; congruence.
Qed.

(** When [s_genes] or [g2m_genes] is the empty list, the forced
    [ctrl_size] is 0: a successful run then writes NaN for both scores and
    the phase ["S"] for every cell. *)
Theorem empty_phase_list_all_S adata s_genes g2m_genes (copy : bool) kw (w : world) r w' ad :
  score_genes_cell_cycle adata s_genes g2m_genes copy kw w = (Ok r, w') ->
  heap w !! adata = Some ad ->
  s_genes = [] \/ g2m_genes = [] ->
  heap w' !! body_adata copy adata w
  = Some (with_cell_cycle ad (replicate (length (X ad)) NaN)
                             (replicate (length (X ad)) NaN)) /\
  assign_phase (replicate (length (X ad)) NaN) (replicate (length (X ad)) NaN)
  = replicate (length (X ad)) "S"%string.
Proof.
  intros Hrun Had Hempty.
  apply cell_cycle_inv in Hrun
    as (ad0 & lc1 & w1 & lc2 & w2 & _ & Had0 & Hb1 & Hb2 & _ & ->).
  assert (ad0 = ad) as -> by congruence.
  assert (Z.min (Z.of_nat (length s_genes)) (Z.of_nat (length g2m_genes)) = 0) as Hcs.
  { destruct Hempty as [-> | ->]; cbn [length]; lia. }
  rewrite Hcs in Hb1, Hb2.
  pose proof (score_genes_body_zero_ctrl _ _ _ _ _ _ _ _ ad Hb1
                (body_world_lookup adata copy w ad Had)) as Hs1.
  pose proof (score_genes_body_zero_ctrl _ _ _ _ _ _ _ _ _ Hb2
                ltac:(apply lookup_insert_eq)) as Hs2.
  cbn [X set_obs_column] in Hs2.
  split; [|apply assign_phase_nan].
  cbn [heap]. by rewrite lookup_insert_eq, Hs1, Hs2.
Qed.


End CellCycleEdges.

(** * The command line *)

Section CommandLine.

(** Whatever [main] hands to the parser starts with the key of a tool and is
    the argument list, with at most its first two entries exchanged. *)
Theorem parser_gets_tool_first (prog : string) (args l : list string) :
  main prog args = RunTool l ->
  exists tool rest,
    l = tool :: rest /\ tool ∈ dtools.*1 /\
    (args = tool :: rest
     \/ exists exkey rest', rest = exkey :: rest' /\ args = exkey :: tool :: rest'
                            /\ exkey ∉ dtools.*1).
Proof.
  unfold main. destruct args as [|a1 rest]; [done|].
  case_bool_decide; [done|]. case_bool_decide; [done|].
  case_bool_decide as Htool.
  - destruct rest as [|a2 rest']; [done|].
    case_bool_decide as Ha2; [|done]. intros [= <-].
    exists a2, (a1 :: rest'). split; [done|]. split; [done|].
    right. by exists a1, rest'.
  - intros [= <-]. exists a1, rest. split; [done|]. split; [|by left].
    by destruct (decide (a1 ∈ dtools.*1)).
Qed.

(** The two orders of the usage text are the same call: [exkey tool] reaches
    the parser as [tool exkey], provided [exkey] is no tool, no inquiry and
    no help request. *)
Theorem exkey_tool_is_tool_exkey (prog exkey tool : string) (rest : list string) :
  tool ∈ dtools.*1 ->
  exkey ∉ dtools.*1 -> exkey ∉ dsimple.*1 ->
  exkey ≠ "h"%string -> exkey ≠ "--help"%string ->
  main prog (exkey :: tool :: rest) = RunTool (tool :: exkey :: rest) /\
  main prog (tool :: exkey :: rest) = RunTool (tool :: exkey :: rest).
Proof.
  intros Htool Hex1 Hex2 Hh Hhelp. split.
  - unfold main.
    rewrite bool_decide_eq_false_2 by (intros [?|?]; done).
    rewrite (bool_decide_eq_false_2 (exkey ∈ dsimple.*1)) by done.
    rewrite (bool_decide_eq_true_2 (exkey ∉ dtools.*1)) by done.
    by rewrite (bool_decide_eq_true_2 (tool ∈ dtools.*1)).
  - cbn in Htool.
    repeat (apply elem_of_cons in Htool as [->|Htool]; [reflexivity|]).
    by apply elem_of_nil in Htool.
Qed.

End CommandLine.

(** * What the scores depend on *)

Section ScoreInputs.
Context `{NumpyRandom}.

(** The body reads the matrix, the gene names and the storage flag of the
    container, never its [obs] table. *)
Lemma score_genes_body_ignores_obs a1 a2 gl cs gp nb rs (w1 w2 : world) ad1 ad2 :
  heap w1 !! a1 = Some ad1 -> heap w2 !! a2 = Some ad2 ->
  X ad1 = X ad2 -> var_names ad1 = var_names ad2 -> issparse ad1 = issparse ad2 ->
  rng (after_seed rs w1) = rng (after_seed rs w2) ->
  (score_genes_body a1 gl cs gp nb rs w1).1 = (score_genes_body a2 gl cs gp nb rs w2).1.
Proof.
  intros H1 H2 HX Hvar Hsp Hrng.
  assert (known_genes ad1 = known_genes ad2) as Hk
    by (unfold known_genes; by rewrite Hvar).
  assert (resolve_gene_pool ad1 = resolve_gene_pool ad2) as Hp
    by (unfold resolve_gene_pool; by rewrite Hvar).
  assert (subset_X ad1 = subset_X ad2) as Hsub
    by (unfold subset_X, var_index; by rewrite HX, Hvar).
  assert (obs_avg_of ad1 = obs_avg_of ad2) as Havg
    by (unfold obs_avg_of; by rewrite Hsp).
  unfold score_genes_body.
  rewrite !bind_run, !seed_step_run.
  destruct (decide (rs = 0 \/ 0 <= rs < 2 ^ 32)); [|done].
  rewrite !bind_run. unfold get_adata. rewrite !heap_after_seed, H1, H2.
  cbv zeta. rewrite Hk, Hp, Hsub, Havg.
  rewrite !bind_run. unfold lift at 1 6.
  destruct (subset_X ad2 (resolve_gene_pool ad2 gp)) as [pool_X|]; [|done].
  rewrite !bind_run. unfold lift at 1 5.
  destruct (n_items_of _ nb) as [n|]; [|done].
  rewrite !bind_run. unfold lift at 1 4.
  destruct (series_loc _ _) as [picked|]; [|done].
  rewrite !bind_run, !pick_controls_run. cbn [fst snd rng]. rewrite Hrng.
  rewrite !bind_run. unfold lift at 1 3.
  destruct (subset_X ad2 (elements (known_genes ad2 gl))) as [tX|]; [|done].
  rewrite !bind_run. unfold lift.
  by destruct (subset_X ad2 (elements (_ ∖ _))) as [cX|].
Qed.

(** Columns already in [obs] -- and so earlier runs of [score_genes] -- do
    not influence a run: on two containers with the same matrix, gene names
    and storage flag, and the generator in the same state (or a non-zero
    seed), the runs end the same way with the same control genes and
    scores. *)
Theorem scores_ignore_obs a1 a2 gl cs gp nb name rs (w1 w2 : world) ad1 ad2 :
  heap w1 !! a1 = Some ad1 -> heap w2 !! a2 = Some ad2 ->
  X ad1 = X ad2 -> var_names ad1 = var_names ad2 -> issparse ad1 = issparse ad2 ->
  rs ≠ 0 \/ rng w1 = rng w2 ->
  locals_of_run (score_genes_run a1 gl cs gp nb name rs false w1)
  = locals_of_run (score_genes_run a2 gl cs gp nb name rs false w2).
Proof.
  intros H1 H2 HX Hvar Hsp Hrs.
  pose proof (score_genes_body_ignores_obs a1 a2 gl cs gp nb rs w1 w2 ad1 ad2
                H1 H2 HX Hvar Hsp) as Hcongr.
  rewrite !rng_after_seed in Hcongr.
  specialize (Hcongr ltac:(case_decide; [by destruct Hrs|done])).
  destruct (score_genes_body a1 gl cs gp nb rs w1) as [[lc1|e1] w1'] eqn:Hb1;
  destruct (score_genes_body a2 gl cs gp nb rs w2) as [[lc2|e2] w2'] eqn:Hb2.
  all: cbn [fst] in Hcongr.
  all: try (rewrite (score_genes_run_intro a1 gl cs gp nb name rs false w1 ad1 _ _ H1 Hb1)).
  all: try (rewrite (score_genes_run_intro a2 gl cs gp nb name rs false w2 ad2 _ _ H2 Hb2)).
  all: try (rewrite (score_genes_run_raise a1 gl cs gp nb name rs false w1 ad1 _ _ H1 Hb1)).
  all: try (rewrite (score_genes_run_raise a2 gl cs gp nb name rs false w2 ad2 _ _ H2 Hb2)).
  all: unfold locals_of_run; cbn [fst snd]; exact Hcongr.
Qed.

(** With a non-zero [random_state], running [score_genes] in place a second
    time with the same arguments writes the same column again: the store of
    containers is left as the first run left it. *)
Theorem seeded_rerun_is_idempotent a gl cs gp nb name rs (w w1 : world) :
  rs ≠ 0 ->
  score_genes a gl cs gp nb name rs false w = (Ok None, w1) ->
  exists w2,
    score_genes a gl cs gp nb name rs false w1 = (Ok None, w2) /\
    heap w2 = heap w1.
Proof.
  intros Hrs Hrun1.
  apply score_genes_inplace_inv in Hrun1 as (ad & lc & w1b & Ha & Hbody & _ & ->).
  set (ad1 := set_obs_column ad name (NumCol (l_score lc))).
  set (w1 := mkWorld (<[a := ad1]> (heap w)) (rng w1b) (rng_calls w1b)).
  assert (heap w1 !! a = Some ad1) as Ha1 by apply lookup_insert_eq.
  pose proof (score_genes_body_ignores_obs a a gl cs gp nb rs w w1 ad ad1 Ha Ha1
                eq_refl eq_refl eq_refl) as Hcongr.
  rewrite !rng_after_seed, !decide_False in Hcongr by done.
  specialize (Hcongr eq_refl). rewrite Hbody in Hcongr. cbn [fst] in Hcongr.
  destruct (score_genes_body a gl cs gp nb rs w1) as [[lc2|e2] w2b] eqn:Hb2; [|done].
  injection Hcongr as <-.
  eexists. rewrite (score_genes_inplace_intro a gl cs gp nb name rs w1 ad1 lc w2b Ha1 Hb2).
  split; [done|]. unfold w1. cbn [heap]. rewrite insert_insert_eq. f_equal.
  unfold ad1, set_obs_column. cbn. by rewrite insert_insert_eq.
Qed.

Lemma mean_nan (l : list num) : NaN ∈ l -> mean l = NaN.
Proof.
  intros Hin. unfold mean.
  destruct (forallb _ l) eqn:Hall; [|done].
  rewrite forallb_forall in Hall. by specialize (Hall NaN ltac:(by apply list_elem_of_In)).
Qed.

Lemma subset_X_lookup (ad : AnnData) names m i row :
  subset_X ad names = Ok m -> X ad !! i = Some row ->
  exists js, mapM (var_index ad) names = Some js /\ m !! i = Some (map (entry row) js).
Proof.
  unfold subset_X. destruct (mapM (var_index ad) names) as [js|]; [|done].
  intros [= <-] Hrow. exists js. split; [done|].
  change (map ?f ?l) with (f <$> l). by rewrite list_lookup_fmap, Hrow.
Qed.

Lemma mapM_elem (ad : AnnData) names js g j :
  mapM (var_index ad) names = Some js -> g ∈ names -> var_index ad g = Some j -> j ∈ js.
Proof.
  intros Hm Hg Hj. apply mapM_Some in Hm.
  apply list_elem_of_lookup in Hg as [k Hk].
  destruct (Forall2_lookup_l _ _ _ _ _ Hm Hk) as (j' & Hj' & Hf).
  apply list_elem_of_lookup. exists k. congruence.
Qed.

(** A missing value is skipped when the genes are binned, but not in the
    score: a cell with a NaN entry in the column of a target gene or of a
    control gene has the score NaN. *)
Theorem missing_value_gives_nan_score adata gl cs gp nb name rs (copy : bool) (w : world)
    r lc w' ad i row g j :
  score_genes_run adata gl cs gp nb name rs copy w = (Ok (r, lc), w') ->
  heap w !! adata = Some ad ->
  X ad !! i = Some row ->
  g ∈ l_gene_list lc \/ g ∈ l_control_genes lc ->
  var_index ad g = Some j ->
  entry row j = NaN ->
  l_score lc !! i = Some NaN.
Proof.
  intros Hrun Had Hrow Hg Hj Hnan.
  apply score_genes_run_inv in Hrun as (ad0 & w1 & Had0 & Hbody & _ & _).
  assert (ad0 = ad) as -> by congruence.
  apply score_genes_body_inv in Hbody
    as (ad' & pool_X & n & picked & tX & cX & Had' & _ & _ & _ & _ & HtX & HcX & -> & _).
  rewrite (body_world_lookup adata copy w ad Had) in Had'. injection Had' as <-.
  cbn [l_gene_list l_control_genes l_score] in *.
  destruct (subset_X_lookup _ _ _ _ _ HtX Hrow) as (jt & Hjt & Ht).
  destruct (subset_X_lookup _ _ _ _ _ HcX Hrow) as (jc & Hjc & Hc).
  unfold mean_axis1. apply lookup_zip_with_Some.
  exists (mean (map (entry row) jt)), (mean (map (entry row) jc)).
  split; [|split].
  - destruct Hg as [Hg|Hg].
    + rewrite (mean_nan (map (entry row) jt)); [done|].
      rewrite <- Hnan. apply (list_elem_of_fmap_2 (entry row)). by eapply mapM_elem.
    + rewrite (mean_nan (map (entry row) jc)); [by rewrite num_sub_nan_r|].
      rewrite <- Hnan. apply (list_elem_of_fmap_2 (entry row)). by eapply mapM_elem.
  - change (map mean tX) with (mean <$> tX). by rewrite list_lookup_fmap, Ht.
  - change (map mean cX) with (mean <$> cX). by rewrite list_lookup_fmap, Hc.
Qed.

End ScoreInputs.

(** * The further properties at work *)

Lemma score_column_one_per_cell_witness :
  exists r lc w' ad',
    score_genes_run 0%nat ["C"]%string 2 None 3 "score" 0 false ex_world
    = (Ok (r, lc), w') /\
    heap w' !! 0%nat = Some ad' /\
    obs ad' = <[ "score"%string := NumCol (l_score lc) ]> (obs ex_adata) /\
    length (l_score lc) = 2%nat.
Proof.
  eassert (score_genes_run 0%nat ["C"]%string 2 None 3 "score" 0 false ex_world
           = (Ok (_, _), _)) as Hrun by (vm_compute; reflexivity).
  destruct (score_column_one_per_cell _ _ _ _ _ _ _ _ _ _ _ _ Hrun)
    as (ad & ad' & Had & Had' & Hobs & Hlen & _).
  vm_compute in Had. injection Had as <-.
  eexists _, _, _, ad'. split; [exact Hrun|]. split; [exact Had'|].
  split; [exact Hobs|exact Hlen].
Defined.




Lemma pool_miss_raises_key_error_witness :
  exists w',
    score_genes 0%nat ["C"]%string 2 (Some ["A"; "B"]%string) 3 "score" 5 false ex_world
    = (Raise KeyError, w') /\
    heap w' !! 0%nat = Some ex_adata /\
    rng_calls w' = [CallSeed 5].
Proof.
  destruct (pool_miss_raises_key_error 0%nat ["C"]%string 2 (Some ["A"; "B"]%string) 3
              "score"%string 5 false ex_world ex_adata)
    as (w' & Hrun & Hkeep & _ & Hcalls).
  - reflexivity.
  - right. lia.
  - lia.
  - apply (bool_decide_unpack _). by vm_compute.
  - apply (bool_decide_unpack _). by vm_compute.
  - exists w'. split; [exact Hrun|]. split; [exact Hkeep|exact Hcalls].
Defined.

Lemma failed_run_keeps_containers_witness :
  exists e w',
    score_genes 0%nat ["C"]%string 2 None 1 "score" 5 true ex_world = (Raise e, w') /\
    heap w' !! 0%nat = Some ex_adata.
Proof.
  eassert (score_genes 0%nat ["C"]%string 2 None 1 "score" 5 true ex_world
           = (Raise _, _)) as Hrun by (vm_compute; reflexivity).
  eexists _, _. split; [exact Hrun|].
  exact (failed_run_keeps_containers _ _ _ _ _ _ _ _ _ _ _ Hrun 0%nat ex_adata eq_refl).
Defined.

Lemma copy_flag_keeps_scores_witness :
  locals_of_run (score_genes_run 0%nat ["C"]%string 2 None 3 "score" 0 true ex_world)
  = locals_of_run (score_genes_run 0%nat ["C"]%string 2 None 3 "score" 0 false ex_world).
Proof.
  exact (copy_flag_keeps_scores 0%nat ["C"]%string 2 None 3 "score"%string 0
           ex_world ex_adata eq_refl).
Defined.

Lemma control_genes_are_matched_witness :
  exists r lc w',
    score_genes_run 0%nat ["C"]%string 2 None 3 "score" 0 false ex_world
    = (Ok (r, lc), w') /\
    l_control_genes lc = ["D"]%string /\
    exists t z,
      t ∈ l_gene_set lc /\
      (t, Some z) ∈ l_obs_cut lc /\ ("D"%string, Some z) ∈ l_obs_cut lc.
Proof.
  eassert (score_genes_run 0%nat ["C"]%string 2 None 3 "score" 0 false ex_world
           = (Ok (_, _), _)) as Hrun by (vm_compute; reflexivity).
  eexists _, _, _. split; [exact Hrun|]. split; [by vm_compute|].
  refine (proj2 (proj2 (proj2
    (control_genes_are_matched _ _ _ _ _ _ _ _ _ _ _ _ ex_adata Hrun eq_refl
       "D"%string _)))).
  apply (bool_decide_unpack _). by vm_compute.
Defined.


Lemma bins_follow_expression_witness :
  exists z1 z2,
    obs_cut_of [("A", Fin 1); ("B", Fin (5 # 2)); ("C", Fin (5 # 2)); ("D", Fin 7)]%string 2
      !! 1%nat = Some ("B"%string, Some z1) /\
    obs_cut_of [("A", Fin 1); ("B", Fin (5 # 2)); ("C", Fin (5 # 2)); ("D", Fin 7)]%string 2
      !! 3%nat = Some ("D"%string, Some z2) /\
    z1 <= z2.
Proof.
  destruct (bins_follow_expression
              [("A", Fin 1); ("B", Fin (5 # 2)); ("C", Fin (5 # 2)); ("D", Fin 7)]%string
              2 1%nat 3%nat "B"%string "D"%string (5 # 2) 7)
    as (z1 & z2 & H1 & H2 & Hle & _).
  - lia.
  - reflexivity.
  - reflexivity.
  - unfold Qle. cbn. lia.
  - exists z1, z2. split; [exact H1|]. split; [exact H2|exact Hle].
Defined.

Lemma bin_index_bound_witness :
  exists r lc w',
    score_genes_run 0%nat ["A"; "B"]%string 2 None 6 "score" 0 false ex_world
    = (Ok (r, lc), w') /\
    ("F"%string, Some 6) ∈ l_obs_cut lc /\
    0 <= 6 /\ 2 * 6 <= 3 * (6 - 1).
Proof.
  eassert (score_genes_run 0%nat ["A"; "B"]%string 2 None 6 "score" 0 false ex_world
           = (Ok (_, _), _)) as Hrun by (vm_compute; reflexivity).
  match type of Hrun with
  | _ = (Ok (_, ?lc), _) =>
      assert (("F"%string, Some 6) ∈ l_obs_cut lc) as Hin
        by (apply (bool_decide_unpack _); by vm_compute)
  end.
  eexists _, _, _. split; [exact Hrun|]. split; [exact Hin|].
  exact (bin_index_bound _ _ _ _ _ _ _ _ _ _ _ _ Hrun ltac:(lia) _ _ Hin).
Defined.

Lemma negative_ctrl_size_drops_from_end_witness :
  exists r lc w',
    score_genes_run 0%nat ["C"]%string (-1) None 3 "score" 0 false ex_world
    = (Ok (r, lc), w') /\
    genes_in_cut (l_obs_cut lc) (Some 1) = ["C"; "D"; "E"]%string /\
    Z.of_nat (size (l_sampled lc ∩ list_to_set (genes_in_cut (l_obs_cut lc) (Some 1))))
    = Z.max 0 (Z.of_nat (length (genes_in_cut (l_obs_cut lc) (Some 1))) + -1).
Proof.
  eassert (score_genes_run 0%nat ["C"]%string (-1) None 3 "score" 0 false ex_world
           = (Ok (_, _), _)) as Hrun by (vm_compute; reflexivity).
  eexists _, _, _. split; [exact Hrun|]. split; [by vm_compute|].
  apply (negative_ctrl_size_drops_from_end _ _ _ _ _ _ _ _ _ _ _ _ Hrun ltac:(lia)
           ltac:(apply (bool_decide_unpack _); by vm_compute) "C"%string 1).
  - apply (bool_decide_unpack _). by vm_compute.
  - apply (bool_decide_unpack _). by vm_compute.
Defined.

Lemma phase_column_invariant_witness :
  exists w' ad' phase,
    score_genes_cell_cycle 0%nat ["A"; "B"; "C"]%string ["A"; "C"]%string false
      ex_kwargs ex_world = (Ok None, w') /\
    heap w' !! 0%nat = Some ad' /\
    obs ad' !! "phase"%string = Some (StrCol phase) /\
    length phase = 2%nat /\
    Forall (fun p => p ∈ ["S"; "G2M"; "G1"]%string) phase.
Proof.
  eassert (score_genes_cell_cycle 0%nat ["A"; "B"; "C"]%string ["A"; "C"]%string false
             ex_kwargs ex_world = (Ok None, _)) as Hrun
    by (vm_compute; reflexivity).
  destruct (phase_column_invariant _ _ _ _ _ _ _ _ Hrun)
    as (ad & ad' & S_score & G2M_score & phase & Had & Had' & _ & _ & Hph & _ & _
        & Hlen & Hall & _).
  vm_compute in Had. injection Had as <-.
  eexists _, ad', phase. split; [exact Hrun|]. split; [exact Had'|].
  split; [exact Hph|]. split; [exact Hlen|exact Hall].
Defined.

Lemma empty_phase_list_all_S_witness :
  exists w',
    score_genes_cell_cycle 0%nat ["A"; "C"]%string [] false ex_kwargs ex_world
    = (Ok None, w') /\
    heap w' !! 0%nat = Some (with_cell_cycle ex_adata [NaN; NaN] [NaN; NaN]) /\
    assign_phase [NaN; NaN] [NaN; NaN] = ["S"; "S"]%string.
Proof.
  eassert (score_genes_cell_cycle 0%nat ["A"; "C"]%string [] false ex_kwargs ex_world
           = (Ok None, _)) as Hrun by (vm_compute; reflexivity).
  destruct (empty_phase_list_all_S _ _ _ _ _ _ _ _ ex_adata Hrun eq_refl
              ltac:(by right)) as [Hheap Hphase].
  eexists. split; [exact Hrun|]. split; [exact Hheap|exact Hphase].
Defined.


Lemma parser_gets_tool_first_witness :
  exists tool rest,
    RunTool ["pca"; "paul15"; "--plot"]%string = RunTool (tool :: rest) /\
    tool ∈ dtools.*1.
Proof.
  destruct (parser_gets_tool_first "scanpy"%string ["paul15"; "pca"; "--plot"]%string
              ["pca"; "paul15"; "--plot"]%string eq_refl)
    as (tool & rest & Hl & Htool & _).
  exists tool, rest. split; [by rewrite Hl|exact Htool].
Defined.

Lemma exkey_tool_is_tool_exkey_witness :
  main "scanpy"%string ["paul15"; "dpt"]%string = RunTool ["dpt"; "paul15"]%string /\
  main "scanpy"%string ["dpt"; "paul15"]%string = RunTool ["dpt"; "paul15"]%string.
Proof.
  apply (exkey_tool_is_tool_exkey "scanpy"%string "paul15"%string "dpt"%string []).
  - apply (bool_decide_unpack _). by vm_compute.
  - apply (bool_decide_unpack _). by vm_compute.
  - apply (bool_decide_unpack _). by vm_compute.
  - done.
  - done.
Defined.

Lemma scores_ignore_obs_witness :
  locals_of_run (score_genes_run 0%nat ["C"]%string 2 None 3 "score" 0 false ex_world)
  = locals_of_run
      (score_genes_run 0%nat ["C"]%string 2 None 3 "score" 0 false
         (mkWorld {[ 0%nat := set_obs_column ex_adata "batch" (StrCol ["a"; "b"]%string) ]}
                  0%nat [])).
Proof.
  apply (scores_ignore_obs 0%nat 0%nat ["C"]%string 2 None 3 "score"%string 0
           ex_world _ ex_adata
           (set_obs_column ex_adata "batch" (StrCol ["a"; "b"]%string))).
  - reflexivity.
  - reflexivity.
  - reflexivity.
  - reflexivity.
  - reflexivity.
  - by right.
Defined.

Lemma seeded_rerun_is_idempotent_witness :
  exists w1 w2,
    score_genes 0%nat ["C"]%string 2 None 3 "score" 7 false ex_world = (Ok None, w1) /\
    score_genes 0%nat ["C"]%string 2 None 3 "score" 7 false w1 = (Ok None, w2) /\
    heap w2 = heap w1.
Proof.
  eassert (score_genes 0%nat ["C"]%string 2 None 3 "score" 7 false ex_world
           = (Ok None, _)) as Hrun by (vm_compute; reflexivity).
  destruct (seeded_rerun_is_idempotent 0%nat ["C"]%string 2 None 3 "score"%string 7
              ex_world _ ltac:(lia) Hrun)
    as (w2 & Hrun2 & Hheap).
  eexists _, w2. split; [exact Hrun|]. split; [exact Hrun2|exact Hheap].
Defined.

Lemma missing_value_gives_nan_score_witness :
  exists r lc w',
    score_genes_run 0%nat ["C"]%string 2 None 3 "score" 0 false ex_world_nan
    = (Ok (r, lc), w') /\
    l_score lc !! 0%nat = Some NaN /\
    l_score lc !! 1%nat = Some (Fin (-1)).
Proof.
  eassert (score_genes_run 0%nat ["C"]%string 2 None 3 "score" 0 false ex_world_nan
           = (Ok (_, _), _)) as Hrun by (vm_compute; reflexivity).
  eexists _, _, _. split; [exact Hrun|]. split; [|by vm_compute].
  apply (missing_value_gives_nan_score _ _ _ _ _ _ _ _ _ _ _ _ ex_adata_nan 0%nat
           [Fin 1; Fin 2; NaN; Fin 4; Fin 5; Fin 6] "C"%string 2%nat Hrun).
  - reflexivity.
  - reflexivity.
  - left. apply (bool_decide_unpack _). by vm_compute.
  - reflexivity.
  - reflexivity.
Defined.
